(** * Digi AI Studio: the Gemini service layer

    A shallow embedding of [services/geminiService.ts]: the retry
    executor [withExponentialBackoff] and the three calls built on it
    ([generateImageGemini], [editImageGemini], [sendChatMessageGemini]),
    followed by the properties the specification states about them. *)

From Stdlib Require Import ZArith QArith Qround Qpower List String Ascii Bool Lia Lqa.
From Equations Require Import Equations.
Import ListNotations.

Set Implicit Arguments.

(** ** JavaScript values used by the service layer *)

(** A finite JavaScript [number], with exact arithmetic.  The loop
    counter, the attempt bound, the delay and an error's [status] are
    numbers; NaN and the infinities are left out. *)
Definition number := Q.

Module JS.

(** [a === b] on two numbers. *)
Definition strict_eq (a b : number) : bool := Qeq_bool a b.

(** [a < b] on two numbers. *)
Definition lt (a b : number) : bool := negb (Qle_bool b a).

(** [x === k] where [x] is any value read from an object: a value that
    is not a number ([None]) is never strictly equal to one. *)
Definition field_is (x : option number) (k : number) : bool :=
  match x with
  | Some q => strict_eq q k
  | None => false
  end.

(** [s.includes(needle)]: [needle] occurs in [s] at some position. *)
Fixpoint includes (s needle : string) : bool :=
  String.prefix needle s ||
  match s with
  | EmptyString => false
  | String _ rest => includes rest needle
  end.

(** Interpolation of a possibly missing string in a template literal. *)
Definition interpolate (x : option string) : string :=
  match x with
  | Some s => s
  | None => "undefined"
  end.

(** Truthiness of a possibly missing string: [undefined] and the empty
    string are falsy. *)
Definition truthy_string (x : option string) : bool :=
  match x with
  | Some EmptyString | None => false
  | Some (String _ _) => true
  end.

(** White space and line terminators among the code units below 256:
    tab, line feed, vertical tab, form feed, carriage return, space and
    no-break space.  A character of a [string] stands for one such code
    unit. *)
Definition isWhiteSpace (c : ascii) : bool :=
  match N_of_ascii c with
  | 9%N | 10%N | 11%N | 12%N | 13%N | 32%N | 160%N => true
  | _ => false
  end.

Fixpoint trimStart (s : string) : string :=
  match s with
  | EmptyString => EmptyString
  | String c rest => if isWhiteSpace c then trimStart rest else s
  end.

Fixpoint trimEnd (s : string) : string :=
  match s with
  | EmptyString => EmptyString
  | String c rest =>
      match trimEnd rest with
      | EmptyString => if isWhiteSpace c then EmptyString else String c EmptyString
      | kept => String c kept
      end
  end.

(** [s.trim()]. *)
Definition trim (s : string) : string := trimEnd (trimStart s).

(** [s.split(sep)] for a separator of one character: the pieces of [s]
    between the occurrences of [sep], at least one piece. *)
Fixpoint split (sep : ascii) (s : string) : list string :=
  match s with
  | EmptyString => [EmptyString]
  | String c rest =>
      if Ascii.eqb c sep then EmptyString :: split sep rest
      else
        match split sep rest with
        | piece :: pieces => String c piece :: pieces
        | [] => [String c EmptyString]
        end
  end.

(** [x || fallback] for a possibly missing string [x]. *)
Definition or_else (x : option string) (fallback : string) : string :=
  match x with
  | Some (String c rest) => String c rest
  | Some EmptyString | None => fallback
  end.

End JS.

(** The value caught by [catch (error: any)], an object seen through
    the properties the code reads, and its [name].  [status] is [None]
    when the property is missing or is not a number; [message] is [None]
    when it is [undefined] or [null] (the case [?.] guards) and a string
    otherwise. *)
Record ErrorObject : Type := mkError {
  name : string;
  status : option number;
  message : option string
}.

(** The outcome of an awaited promise. *)
Inductive Settled (E A : Type) : Type :=
| Fulfilled (a : A)
| Rejected (e : E).
Arguments Fulfilled {E A} a.
Arguments Rejected {E A} e.

(** What [withExponentialBackoff] throws: the value it caught from [fn]
    (line 23, the same reference), or an [Error] object it creates
    itself (line 30). *)
Inductive Raised : Type :=
| Rethrown (e : ErrorObject)
| NewError (msg : string).

(** What the executor does, in program order: a call of [fn], a
    [console.warn] entry (attempt number, delay, error), a timer wait. *)
Inductive Event : Type :=
| Invoke
| Warn (attempt : Z) (delay : number) (e : ErrorObject)
| Timeout (delay : number).

(** ** The retry executor *)

Definition entity_not_found : string := "Requested entity was not found.".

(** Lines 18-20. *)
Definition isRetriableError (error : ErrorObject) : bool :=
  JS.field_is (status error) 429 ||
  match message error with
  | Some m => JS.includes m entity_not_found
  | None => false
  end ||
  JS.field_is (status error) 403.

Definition max_retry_message : string := "Maximum retry attempts reached.".

Section Executor.

(** [W] is the state of everything [fn] can touch; [fn] is a
    zero-argument asynchronous function, settled for each state it is
    called in. *)
Context {W T : Type}.
Variable fn : W -> Settled ErrorObject T * W.
Variable attempts : number.

(** The [for] loop of lines 13-29 followed by line 30, from the state
    in which the counter is [i]. *)
#[derive(equations=no, eliminator=no)] Equations loop
    (i : Z) (delay : number) (w : W) : Settled Raised T * W * list Event
  by wf (Z.to_nat (Qceiling attempts - i)) lt :=
  loop i delay w
    with Equations.Prop.Logic.inspect (JS.lt (inject_Z i) attempts) := {
    | exist _ true Hlt =>
        match fn w with
        | (Fulfilled v, w1) => (Fulfilled v, w1, [Invoke])
        | (Rejected error, w1) =>
            if JS.strict_eq (inject_Z i) (attempts - 1)
               || negb (isRetriableError error)
            then (Rejected (Rethrown error), w1, [Invoke])
            else
              let '(r, w2, evs) := loop (i + 1) (delay * 2) w1 in
              (r, w2, Invoke :: Warn (i + 1) delay error :: Timeout delay :: evs)
        end
    | exist _ false _ =>
        (Rejected (NewError max_retry_message), w, []) }.
Next Obligation.
  unfold JS.lt in Hlt. rewrite negb_true_iff in Hlt.
  assert (Hi : inject_Z i < attempts).
  { apply Qnot_le_lt. intros Hle. apply Qle_bool_iff in Hle. congruence. }
  assert (Hc : inject_Z i < inject_Z (Qceiling attempts)).
  { eapply Qlt_le_trans; [exact Hi | apply Qle_ceiling]. }
  rewrite <- Zlt_Qlt in Hc. lia.
Qed.

End Executor.

(** Line 12: [attempts] and [delay] default to 3 and 1000 when the
    caller leaves them out. *)
Definition withExponentialBackoff {W T : Type}
    (fn : W -> Settled ErrorObject T * W)
    (attempts delay : option number) (w : W) :
    Settled Raised T * W * list Event :=
  let attempts := match attempts with Some a => a | None => 3 end in
  let delay := match delay with Some d => d | None => 1000 end in
  loop fn attempts 0 delay w.

(** ** The remote service

    The shapes of the [@google/genai] requests and responses that the
    three calls build and read.  Every optional property is an [option]. *)

Record GenerateImagesConfig : Type := {
  numberOfImages : Z;
  aspectRatio : string;
  outputMimeType : string
}.

Record GenerateImagesParameters : Type := {
  images_model : string;
  images_prompt : string;
  images_config : GenerateImagesConfig
}.

Record Image : Type := { imageBytes : option string }.
Record GeneratedImage : Type := { image : option Image }.
Record GenerateImagesResponse : Type := {
  generatedImages : option (list GeneratedImage)
}.

Record Blob : Type := { mimeType : option string; data : option string }.
Record Part : Type := { part_text : option string; inlineData : option Blob }.
Record Content : Type := {
  content_role : option string;
  parts : option (list Part)
}.
Record Candidate : Type := { content : option Content }.

(** [text] is the response's accessor for the reply text. *)
Record GenerateContentResponse : Type := {
  candidates : option (list Candidate);
  text : option string
}.

Record GenerateContentParameters : Type := {
  content_model : string;
  contents : Content
}.

Record CreateChatParameters : Type := {
  chat_model : string;
  systemInstruction : Content;
  history : list Content
}.

Record SendMessageParameters : Type := { send_message : string }.

(** A request as it leaves the page, with the credential of the client
    that sent it. *)
Inductive Request : Type :=
| GenerateImages (apiKey : string) (params : GenerateImagesParameters)
| GenerateContent (apiKey : string) (params : GenerateContentParameters)
| ChatSendMessage (apiKey : string) (chat : CreateChatParameters)
    (params : SendMessageParameters).

(** The client library over a remote state [R]: each call settles and
    moves the remote state.  [chats_sendMessage] stands for
    [ai.chats.create(chat).sendMessage(params)]. *)
Record GoogleGenAI (R : Type) : Type := {
  models_generateImages :
    string -> GenerateImagesParameters -> R ->
    Settled ErrorObject GenerateImagesResponse * R;
  models_generateContent :
    string -> GenerateContentParameters -> R ->
    Settled ErrorObject GenerateContentResponse * R;
  chats_sendMessage :
    string -> CreateChatParameters -> SendMessageParameters -> R ->
    Settled ErrorObject GenerateContentResponse * R
}.

(** The page a call runs in: the remote state, [process.env.API_KEY],
    the requests sent so far and the [console.error] entries, oldest
    first. *)
Record Page (R : Type) : Type := mkPage {
  remote : R;
  API_KEY : option string;
  sent : list Request;
  console_error : list (string * ErrorObject)
}.

(** [ChatMessage], lines 123-126. *)
Inductive Role : Type := user | model.
Record ChatMessage : Type := { role : Role; message_text : string }.

(** The [TypeError] of reading property [prop] of [undefined].  The
    message is the one V8 gives; other engines word it differently, and
    the code depends on it only in that it does not contain the
    retriable phrase of line 19. *)
Definition TypeError_reading (prop : string) : ErrorObject :=
  {| name := "TypeError";
     status := None;
     message := Some ("Cannot read properties of undefined (reading '"
                      ++ prop ++ "')")%string |}.

(** ** The three calls *)

Section Calls.

Context {R : Type}.
Variable ai : GoogleGenAI R.

(** [process.env.API_KEY || ''], read when the client is created. *)
Definition apiKey (page : Page R) : string :=
  match API_KEY page with
  | Some key => key
  | None => ""%string
  end.

(** [console.error(label, error)]. *)
Definition log_error (label : string) (error : ErrorObject)
    (page : Page R) : Page R :=
  {| remote := remote page;
     API_KEY := API_KEY page;
     sent := sent page;
     console_error := (console_error page ++ [(label, error)])%list |}.

(** The page after [request] was sent and the remote state became [r]. *)
Definition after_request (request : Request) (r : R)
    (page : Page R) : Page R :=
  {| remote := r;
     API_KEY := API_KEY page;
     sent := (sent page ++ [request])%list;
     console_error := console_error page |}.

(** Lines 62-65. *)
Definition generated_image (response : GenerateImagesResponse) :
    Settled ErrorObject (option string) :=
  match generatedImages response with
  | None => Fulfilled None
  | Some [] => Fulfilled None
  | Some (first :: _) =>
      match image first with
      | None => Rejected (TypeError_reading "imageBytes")
      | Some img =>
          if JS.truthy_string (imageBytes img)
          then Fulfilled
                 (Some ("data:image/png;base64,"
                        ++ JS.interpolate (imageBytes img))%string)
          else Fulfilled None
      end
  end.

(** The request of lines 51-60. *)
Definition imagen_request (prompt ratio : string) : GenerateImagesParameters :=
  let fullPrompt :=
    (prompt ++ ", high quality, professional, highly detailed.")%string in
  {| images_model := "imagen-4.0-generate-001";
     images_prompt := fullPrompt;
     images_config := {| numberOfImages := 1;
                         aspectRatio := ratio;
                         outputMimeType := "image/png" |} |}.

(** The function passed to the executor at line 46. *)
Definition generateImage_attempt (prompt ratio : string)
    (page : Page R) : Settled ErrorObject (option string) * Page R :=
  let key := apiKey page in
  let params := imagen_request prompt ratio in
  let (settled, r) := models_generateImages ai key params (remote page) in
  let page1 := after_request (GenerateImages key params) r page in
  let label := "Imagen image generation error:"%string in
  match settled with
  | Fulfilled response =>
      match generated_image response with
      | Fulfilled url => (Fulfilled url, page1)
      | Rejected error => (Rejected error, log_error label error page1)
      end
  | Rejected error => (Rejected error, log_error label error page1)
  end.

Definition generateImageGemini (prompt ratio : string) (page : Page R) :
    Settled Raised (option string) * Page R * list Event :=
  withExponentialBackoff (generateImage_attempt prompt ratio) None None page.

(** [response.candidates?.[0]?.content?.parts || []], line 107. *)
Definition response_parts (response : GenerateContentResponse) : list Part :=
  match candidates response with
  | Some (first :: _) =>
      match content first with
      | Some c =>
          match parts c with
          | Some ps => ps
          | None => []
          end
      | None => []
      end
  | Some [] | None => []
  end.

(** The [for ... of] loop of lines 107-112. *)
Fixpoint edited_image (ps : list Part) : option string :=
  match ps with
  | [] => None
  | part :: rest =>
      match inlineData part with
      | Some blob =>
          Some ("data:image/png;base64," ++ JS.interpolate (data blob))%string
      | None => edited_image rest
      end
  end.

(** The request of lines 92-105. *)
Definition edit_request (prompt base64ImageData mime : string) :
    GenerateContentParameters :=
  {| content_model := "gemini-2.5-flash-image";
     contents :=
       {| content_role := None;
          parts := Some
            [ {| part_text :=
                   Some ("Edit this image based on the following instruction: "
                         ++ prompt ++ ". Return ONLY the edited image.")%string;
                 inlineData := None |};
              {| part_text := None;
                 inlineData := Some {| mimeType := Some mime;
                                       data := Some base64ImageData |} |} ]
       |} |}.

(** The function passed to the executor at line 88. *)
Definition editImage_attempt (prompt base64ImageData mime : string)
    (page : Page R) : Settled ErrorObject (option string) * Page R :=
  let key := apiKey page in
  let params := edit_request prompt base64ImageData mime in
  let (settled, r) := models_generateContent ai key params (remote page) in
  let page1 := after_request (GenerateContent key params) r page in
  match settled with
  | Fulfilled response =>
      (Fulfilled (edited_image (response_parts response)), page1)
  | Rejected error =>
      (Rejected error, log_error "Gemini image editing error:" error page1)
  end.

(** [mimeType] defaults to ['image/png'], line 84. *)
Definition mimeType_or_default (mime : option string) : string :=
  match mime with
  | Some m => m
  | None => "image/png"%string
  end.

Definition editImageGemini (prompt base64ImageData : string)
    (mime : option string) (page : Page R) :
    Settled Raised (option string) * Page R * list Event :=
  withExponentialBackoff
    (editImage_attempt prompt base64ImageData (mimeType_or_default mime))
    None None page.

Definition persona : string :=
  "You are 'Digi AI Assistant', a highly professional, mannerful, and helpful problem-solving AI. Your goal is to provide clear, effective, and supportive solutions to user problems. Maintain a warm, encouraging, and sophisticated tone, similar to a premium consultant or mentor.".

Definition text_part (s : string) : Part :=
  {| part_text := Some s; inlineData := None |}.

(** The function mapped over [history] at lines 152-155. *)
Definition history_entry (msg : ChatMessage) : Content :=
  {| content_role :=
       Some match role msg with
            | user => "user"%string
            | model => "model"%string
            end;
     parts := Some [text_part (message_text msg)] |}.

(** The chat created at lines 144-156. *)
Definition chat_session (messages : list ChatMessage) : CreateChatParameters :=
  {| chat_model := "gemini-2.5-flash";
     systemInstruction :=
       {| content_role := None; parts := Some [text_part persona] |};
     history := map history_entry messages |}.

(** The function passed to the executor at line 139. *)
Definition sendChatMessage_attempt (messages : list ChatMessage)
    (newMessage : string) (page : Page R) :
    Settled ErrorObject (option string) * Page R :=
  let key := apiKey page in
  let chat := chat_session messages in
  let params := {| send_message := newMessage |} in
  let (settled, r) := chats_sendMessage ai key chat params (remote page) in
  let page1 := after_request (ChatSendMessage key chat params) r page in
  match settled with
  | Fulfilled response => (Fulfilled (text response), page1)
  | Rejected error =>
      (Rejected error, log_error "Gemini chat error:" error page1)
  end.

Definition sendChatMessageGemini (messages : list ChatMessage)
    (newMessage : string) (page : Page R) :
    Settled Raised (option string) * Page R * list Event :=
  withExponentialBackoff
    (sendChatMessage_attempt messages newMessage) None None page.

End Calls.

(** ** Observations on a run of the executor *)

(** Number of calls of [fn] in a run. *)
Fixpoint invocations (evs : list Event) : nat :=
  match evs with
  | [] => 0%nat
  | Invoke :: rest => S (invocations rest)
  | _ :: rest => invocations rest
  end.

(** The timer waits of a run, oldest first. *)
Fixpoint delays (evs : list Event) : list number :=
  match evs with
  | [] => []
  | Timeout d :: rest => d :: delays rest
  | _ :: rest => delays rest
  end.

(** The delay after [k] executions of [delay *= 2] (line 27). *)
Fixpoint backoff (k : nat) (delay : number) : number :=
  match k with
  | O => delay
  | S k' => backoff k' (delay * 2)
  end.

(** What the executor does while it retries: for each caught error a
    call, the warning and the wait, with the counter at [i] and the
    delay at [delay] when it starts. *)
Fixpoint retry_trace (errors : list ErrorObject) (i : Z) (delay : number) :
    list Event :=
  match errors with
  | [] => []
  | error :: rest =>
      Invoke :: Warn (i + 1) delay error :: Timeout delay
        :: retry_trace rest (i + 1) (delay * 2)
  end.

(** [Failing fn w errors w']: called again and again from state [w],
    [fn] rejects with [errors], in this order, and leaves state [w']. *)
Inductive Failing {W T : Type} (fn : W -> Settled ErrorObject T * W) :
    W -> list ErrorObject -> W -> Prop :=
| Failing_nil (w : W) : Failing fn w [] w
| Failing_cons (w w1 w2 : W) (error : ErrorObject) (rest : list ErrorObject) :
    fn w = (Rejected error, w1) ->
    Failing fn w1 rest w2 ->
    Failing fn w (error :: rest) w2.

(** The three components of a run. *)
Definition outcome {W T : Type} (run : Settled Raised T * W * list Event) :
    Settled Raised T := fst (fst run).
Definition final_state {W T : Type} (run : Settled Raised T * W * list Event) :
    W := snd (fst run).
Definition events {W T : Type} (run : Settled Raised T * W * list Event) :
    list Event := snd run.

Definition Retriable (errors : list ErrorObject) : Prop :=
  Forall (fun error => isRetriableError error = true) errors.

(** The time waited in a run: the sum of its timer waits. *)
Definition total_wait (evs : list Event) : number :=
  fold_right Qplus 0 (delays evs).

(** The errors the executor retried in a run, oldest first: the ones it
    warned about. *)
Fixpoint retried_errors (evs : list Event) : list ErrorObject :=
  match evs with
  | [] => []
  | Warn _ _ error :: rest => error :: retried_errors rest
  | _ :: rest => retried_errors rest
  end.

(** Every error [fn] threw in a run, oldest first: the retried ones and
    the one thrown again at the end, if any. *)
Definition caught_errors {W T : Type}
    (run : Settled Raised T * W * list Event) : list ErrorObject :=
  (retried_errors (events run)
   ++ match outcome run with
      | Rejected (Rethrown error) => [error]
      | _ => []
      end)%list.

(** ** The component (App.tsx)

    The state of the component is the record of its [useState] cells; a
    handler is a function on the world made of that state, the page and
    the component's own [console.error] entries.  A handler that awaits
    a call runs to its end before the next event is handled. *)

(** [err.message] for a value thrown by the service layer or created by
    [new Error(msg)]. *)
Definition message_of (err : Raised) : option string :=
  match err with
  | Rethrown e => message e
  | NewError msg => Some msg
  end.

Module App.

Inductive Tab : Type := generate | edit.

(** Lines 26-43. *)
Record State : Type := {
  darkMode : bool;
  sidebarOpen : bool;
  prompt : string;
  generatedImage : option string;
  isLoading : bool;
  error : option string;
  aspectRatio : string;
  uploadedImage : option string;
  activeTab : Tab;
  chatHistory : list ChatMessage;
  chatInput : string;
  isChatOpen : bool;
  isChatLoading : bool
}.

Definition initial : State :=
  {| darkMode := false; sidebarOpen := false; prompt := "";
     generatedImage := None; isLoading := false; error := None;
     aspectRatio := "1:1"; uploadedImage := None; activeTab := generate;
     chatHistory := []; chatInput := ""; isChatOpen := false;
     isChatLoading := false |}.

Definition setDarkMode (v : bool) (s : State) : State :=
  {| darkMode := v; sidebarOpen := sidebarOpen s; prompt := prompt s;
     generatedImage := generatedImage s; isLoading := isLoading s;
     error := error s; aspectRatio := aspectRatio s;
     uploadedImage := uploadedImage s; activeTab := activeTab s;
     chatHistory := chatHistory s; chatInput := chatInput s;
     isChatOpen := isChatOpen s; isChatLoading := isChatLoading s |}.

Definition setSidebarOpen (v : bool) (s : State) : State :=
  {| darkMode := darkMode s; sidebarOpen := v; prompt := prompt s;
     generatedImage := generatedImage s; isLoading := isLoading s;
     error := error s; aspectRatio := aspectRatio s;
     uploadedImage := uploadedImage s; activeTab := activeTab s;
     chatHistory := chatHistory s; chatInput := chatInput s;
     isChatOpen := isChatOpen s; isChatLoading := isChatLoading s |}.

Definition setPrompt (v : string) (s : State) : State :=
  {| darkMode := darkMode s; sidebarOpen := sidebarOpen s; prompt := v;
     generatedImage := generatedImage s; isLoading := isLoading s;
     error := error s; aspectRatio := aspectRatio s;
     uploadedImage := uploadedImage s; activeTab := activeTab s;
     chatHistory := chatHistory s; chatInput := chatInput s;
     isChatOpen := isChatOpen s; isChatLoading := isChatLoading s |}.

Definition setGeneratedImage (v : option string) (s : State) : State :=
  {| darkMode := darkMode s; sidebarOpen := sidebarOpen s; prompt := prompt s;
     generatedImage := v; isLoading := isLoading s;
     error := error s; aspectRatio := aspectRatio s;
     uploadedImage := uploadedImage s; activeTab := activeTab s;
     chatHistory := chatHistory s; chatInput := chatInput s;
     isChatOpen := isChatOpen s; isChatLoading := isChatLoading s |}.

Definition setIsLoading (v : bool) (s : State) : State :=
  {| darkMode := darkMode s; sidebarOpen := sidebarOpen s; prompt := prompt s;
     generatedImage := generatedImage s; isLoading := v;
     error := error s; aspectRatio := aspectRatio s;
     uploadedImage := uploadedImage s; activeTab := activeTab s;
     chatHistory := chatHistory s; chatInput := chatInput s;
     isChatOpen := isChatOpen s; isChatLoading := isChatLoading s |}.

Definition setError (v : option string) (s : State) : State :=
  {| darkMode := darkMode s; sidebarOpen := sidebarOpen s; prompt := prompt s;
     generatedImage := generatedImage s; isLoading := isLoading s;
     error := v; aspectRatio := aspectRatio s;
     uploadedImage := uploadedImage s; activeTab := activeTab s;
     chatHistory := chatHistory s; chatInput := chatInput s;
     isChatOpen := isChatOpen s; isChatLoading := isChatLoading s |}.

Definition setAspectRatio (v : string) (s : State) : State :=
  {| darkMode := darkMode s; sidebarOpen := sidebarOpen s; prompt := prompt s;
     generatedImage := generatedImage s; isLoading := isLoading s;
     error := error s; aspectRatio := v;
     uploadedImage := uploadedImage s; activeTab := activeTab s;
     chatHistory := chatHistory s; chatInput := chatInput s;
     isChatOpen := isChatOpen s; isChatLoading := isChatLoading s |}.

Definition setUploadedImage (v : option string) (s : State) : State :=
  {| darkMode := darkMode s; sidebarOpen := sidebarOpen s; prompt := prompt s;
     generatedImage := generatedImage s; isLoading := isLoading s;
     error := error s; aspectRatio := aspectRatio s;
     uploadedImage := v; activeTab := activeTab s;
     chatHistory := chatHistory s; chatInput := chatInput s;
     isChatOpen := isChatOpen s; isChatLoading := isChatLoading s |}.

Definition setActiveTab (v : Tab) (s : State) : State :=
  {| darkMode := darkMode s; sidebarOpen := sidebarOpen s; prompt := prompt s;
     generatedImage := generatedImage s; isLoading := isLoading s;
     error := error s; aspectRatio := aspectRatio s;
     uploadedImage := uploadedImage s; activeTab := v;
     chatHistory := chatHistory s; chatInput := chatInput s;
     isChatOpen := isChatOpen s; isChatLoading := isChatLoading s |}.

Definition setChatHistory (update : list ChatMessage -> list ChatMessage)
    (s : State) : State :=
  {| darkMode := darkMode s; sidebarOpen := sidebarOpen s; prompt := prompt s;
     generatedImage := generatedImage s; isLoading := isLoading s;
     error := error s; aspectRatio := aspectRatio s;
     uploadedImage := uploadedImage s; activeTab := activeTab s;
     chatHistory := update (chatHistory s); chatInput := chatInput s;
     isChatOpen := isChatOpen s; isChatLoading := isChatLoading s |}.

Definition setChatInput (v : string) (s : State) : State :=
  {| darkMode := darkMode s; sidebarOpen := sidebarOpen s; prompt := prompt s;
     generatedImage := generatedImage s; isLoading := isLoading s;
     error := error s; aspectRatio := aspectRatio s;
     uploadedImage := uploadedImage s; activeTab := activeTab s;
     chatHistory := chatHistory s; chatInput := v;
     isChatOpen := isChatOpen s; isChatLoading := isChatLoading s |}.

Definition setIsChatOpen (update : bool -> bool) (s : State) : State :=
  {| darkMode := darkMode s; sidebarOpen := sidebarOpen s; prompt := prompt s;
     generatedImage := generatedImage s; isLoading := isLoading s;
     error := error s; aspectRatio := aspectRatio s;
     uploadedImage := uploadedImage s; activeTab := activeTab s;
     chatHistory := chatHistory s; chatInput := chatInput s;
     isChatOpen := update (isChatOpen s); isChatLoading := isChatLoading s |}.

Definition setIsChatLoading (v : bool) (s : State) : State :=
  {| darkMode := darkMode s; sidebarOpen := sidebarOpen s; prompt := prompt s;
     generatedImage := generatedImage s; isLoading := isLoading s;
     error := error s; aspectRatio := aspectRatio s;
     uploadedImage := uploadedImage s; activeTab := activeTab s;
     chatHistory := chatHistory s; chatInput := chatInput s;
     isChatOpen := isChatOpen s; isChatLoading := v |}.

(** [uploadedImage.split(',')[1]], line 89. *)
Definition base64_of (dataUrl : string) : option string :=
  nth_error (JS.split "," dataUrl) 1.

(** [uploadedImage.split(';')[0].split(':')[1]], line 90. *)
Definition mimeType_of (dataUrl : string) : option string :=
  match JS.split ";" dataUrl with
  | front :: _ => nth_error (JS.split ":" front) 1
  | [] => None
  end.

(** The condition of the [disabled] attribute of the button, line 436. *)
Definition action_disabled (s : State) : bool :=
  isLoading s || negb (JS.truthy_string (Some (prompt s)))
  || match activeTab s with
     | edit => negb (JS.truthy_string (uploadedImage s))
     | generate => false
     end.

(** What the user can do to the component. *)
Inductive UIEvent : Type :=
| ToggleDarkMode
| ToggleSidebar
| SelectTab (tab : Tab)
| SelectRatio (ratio : string)
| ChooseFile (file : option (option string))
| ClearUpload
| TypePrompt (value : string)
| PressEnter
| ClickAction
| ToggleChat
| TypeChat (value : string)
| SubmitChat.

Section Component.

Context {R : Type}.
Variable ai : GoogleGenAI R.

Record World : Type := {
  view : State;
  page : Page R;
  console : list (option string * Raised)
}.

Definition render (update : State -> State) (w : World) : World :=
  {| view := update (view w); page := page w; console := console w |}.

(** [editImageGemini] as it runs when the argument typed [string] is
    [undefined]: the same request with no [data]. *)
Definition edit_request_untyped (prompt : string)
    (base64ImageData : option string) (mime : string) :
    GenerateContentParameters :=
  {| content_model := "gemini-2.5-flash-image";
     contents :=
       {| content_role := None;
          parts := Some
            [ {| part_text :=
                   Some ("Edit this image based on the following instruction: "
                         ++ prompt ++ ". Return ONLY the edited image.")%string;
                 inlineData := None |};
              {| part_text := None;
                 inlineData := Some {| mimeType := Some mime;
                                       data := base64ImageData |} |} ]
       |} |}.

Definition editImage_attempt_untyped (prompt : string)
    (base64ImageData : option string) (mime : string)
    (p : Page R) : Settled ErrorObject (option string) * Page R :=
  let key := apiKey p in
  let params := edit_request_untyped prompt base64ImageData mime in
  let (settled, r) := models_generateContent ai key params (remote p) in
  let page1 := after_request (GenerateContent key params) r p in
  match settled with
  | Fulfilled response =>
      (Fulfilled (edited_image (response_parts response)), page1)
  | Rejected error =>
      (Rejected error, log_error "Gemini image editing error:" error page1)
  end.

Definition editImageGemini_untyped (prompt : string)
    (base64ImageData mime : option string) (p : Page R) :
    Settled Raised (option string) * Page R * list Event :=
  withExponentialBackoff
    (editImage_attempt_untyped prompt base64ImageData
       (mimeType_or_default mime))
    None None p.

(** Lines 55-76. *)
Definition generateImage (w : World) : World :=
  let s := view w in
  if negb (JS.truthy_string (Some (prompt s))) then w
  else
    let s1 := setGeneratedImage None (setError None (setIsLoading true s)) in
    let '(result, page1, _) :=
      generateImageGemini ai (prompt s) (aspectRatio s) (page w) in
    let caught (err : Raised) :=
      {| view :=
           setError
             (Some (JS.or_else (message_of err)
                      "Failed to generate image. Please try a different prompt or check your API key."))
             s1;
         page := page1;
         console := (console w ++ [(None, err)])%list |} in
    let w2 :=
      match result with
      | Fulfilled imageUrl =>
          if JS.truthy_string imageUrl
          then {| view := setGeneratedImage imageUrl s1;
                  page := page1; console := console w |}
          else caught (NewError "No image data received from API.")
      | Rejected err => caught err
      end in
    render (setIsLoading false) w2.

(** Lines 78-105. *)
Definition editImage (w : World) : World :=
  let s := view w in
  if negb (JS.truthy_string (Some (prompt s)))
     || negb (JS.truthy_string (uploadedImage s))
  then
    render
      (setError
         (Some "Please provide both an image and a prompt for editing."%string))
      w
  else
    let s1 := setGeneratedImage None (setError None (setIsLoading true s)) in
    let uploaded := JS.interpolate (uploadedImage s) in
    let base64Data := base64_of uploaded in
    let mimeType := mimeType_of uploaded in
    let '(result, page1, _) :=
      editImageGemini_untyped (prompt s) base64Data mimeType (page w) in
    let caught (err : Raised) :=
      {| view :=
           setError
             (Some (JS.or_else (message_of err)
                      "Failed to edit image. Ensure the prompt is clear or check your API key."))
             s1;
         page := page1;
         console := (console w ++ [(None, err)])%list |} in
    let w2 :=
      match result with
      | Fulfilled imageUrl =>
          if JS.truthy_string imageUrl
          then {| view := setGeneratedImage imageUrl s1;
                  page := page1; console := console w |}
          else
            caught
              (NewError
                 "The model could not generate a visual edit. Try describing the desired output more clearly.")
      | Rejected err => caught err
      end in
    render (setIsLoading false) w2.

(** Lines 107-131. *)
Definition handleChatSubmit (w : World) : World :=
  let s := view w in
  if negb (JS.truthy_string (Some (JS.trim (chatInput s))))
     || isChatLoading s
  then w
  else
    let userMessage := chatInput s in
    let s1 :=
      setIsChatLoading true
        (setChatHistory
           (fun prev =>
              (prev ++ [{| role := user; message_text := userMessage |}])%list)
           (setChatInput "" s)) in
    let '(result, page1, _) :=
      sendChatMessageGemini ai (chatHistory s) userMessage (page w) in
    let reply (answer : string) (s : State) : State :=
      setChatHistory
        (fun prev =>
           (prev ++ [{| role := model; message_text := answer |}])%list) s in
    let caught (err : Raised) :=
      {| view :=
           reply
             (JS.or_else (message_of err)
                "I apologize, but I encountered an error while processing your request. Please try again.")
             s1;
         page := page1;
         console := (console w ++ [(Some "Chat Error:"%string, err)])%list |} in
    let w2 :=
      match result with
      | Fulfilled modelResponseText =>
          if JS.truthy_string modelResponseText
          then {| view := reply (JS.interpolate modelResponseText) s1;
                  page := page1; console := console w |}
          else caught (NewError "Sorry, I couldn't generate a response.")
      | Rejected err => caught err
      end in
    render (setIsChatLoading false) w2.

(** Lines 136-142. *)
Definition handleAction (w : World) : World :=
  match activeTab (view w) with
  | edit =>
      if JS.truthy_string (uploadedImage (view w))
      then editImage w
      else generateImage w
  | generate => generateImage w
  end.

(** Lines 144-155, when the reader has finished: [file] is [None] when
    no file was chosen, and holds [reader.result] otherwise. *)
Definition handleImageUpload (file : option (option string)) (w : World) :
    World :=
  match file with
  | Some result =>
      render
        (fun s => setError None (setActiveTab edit (setUploadedImage result s)))
        w
  | None => w
  end.

(** Lines 168-173. *)
Definition clearUpload (w : World) : World :=
  render
    (fun s =>
       setError None (setPrompt "" (setActiveTab generate
                                      (setUploadedImage None s))))
    w.

(** Lines 175-180. *)
Definition toggleChat (w : World) : World :=
  render
    (fun s =>
       let s1 := setIsChatOpen negb s in
       if negb (isChatOpen s) && sidebarOpen s
       then setSidebarOpen false s1
       else s1)
    w.

(** Line 214. *)
Definition toggleSidebar (w : World) : World :=
  render
    (fun s =>
       let s1 := setSidebarOpen (negb (sidebarOpen s)) s in
       if negb (sidebarOpen s) && isChatOpen s
       then setIsChatOpen (fun _ => false) s1
       else s1)
    w.

(** The handler each event runs; the button does nothing while it is
    disabled. *)
Definition handle (event : UIEvent) (w : World) : World :=
  match event with
  | ToggleDarkMode =>
      render (fun s => setDarkMode (negb (darkMode s)) s) w
  | ToggleSidebar => toggleSidebar w
  | SelectTab tab =>
      render (fun s => setError None (setPrompt "" (setActiveTab tab s))) w
  | SelectRatio ratio => render (setAspectRatio ratio) w
  | ChooseFile file => handleImageUpload file w
  | ClearUpload => clearUpload w
  | TypePrompt value => render (setPrompt value) w
  | PressEnter => handleAction w
  | ClickAction => if action_disabled (view w) then w else handleAction w
  | ToggleChat => toggleChat w
  | TypeChat value => render (setChatInput value) w
  | SubmitChat => handleChatSubmit w
  end.

(** The world after a series of events, the first event first. *)
Definition run (events : list UIEvent) (w : World) : World :=
  fold_left (fun w event => handle event w) events w.

End Component.

(** The chat transcript at rest: user and model take turns, the user
    first, and no text is empty. *)
Fixpoint exchanges (messages : list ChatMessage) : Prop :=
  match messages with
  | [] => True
  | asked :: answered :: rest =>
      role asked = user /\ message_text asked <> ""%string /\
      role answered = model /\ message_text answered <> ""%string /\
      exchanges rest
  | [_] => False
  end.

(** What holds of the state between two events: the chat panel and the
    settings sidebar are not both open, a shown error is not the empty
    string, a shown image is a PNG data URL, the transcript is made of
    exchanges, and nothing is loading. *)
Definition wellformed (s : State) : Prop :=
  isChatOpen s && sidebarOpen s = false /\
  error s <> Some ""%string /\
  (forall url, generatedImage s = Some url ->
     exists bytes, url = ("data:image/png;base64," ++ bytes)%string) /\
  exchanges (chatHistory s) /\
  isLoading s = false /\
  isChatLoading s = false.

End App.

(** Modelled from the spec: the chat session of the client library, whose
    [sendMessage] is not in the repository.  "Establishes a
    conversational context seeded with [...] the full prior transcript,
    each turn mapped to its role.  Appends [newMessage] as a new user
    turn and requests a reply."  [sendMessage_context chat params] is
    the context the remote service is asked to continue: the history the
    chat was created with, then the message as a user turn. *)
Definition sendMessage_context (chat : CreateChatParameters)
    (params : SendMessageParameters) : list Content :=
  (history chat
   ++ [ {| content_role := Some "user"%string;
           parts := Some [ {| part_text := Some (send_message params);
                              inlineData := None |} ] |} ])%list.

(** The credential a request was sent with. *)
Definition request_key (request : Request) : string :=
  match request with
  | GenerateImages key _ => key
  | GenerateContent key _ => key
  | ChatSendMessage key _ _ => key
  end.

(** ** Stub operations and services *)

Module Stub.

Definition quota : ErrorObject :=
  {| name := "ApiError"; status := Some 429;
     message := Some "Resource has been exhausted."%string |}.

Definition bad_request : ErrorObject :=
  {| name := "ApiError"; status := Some 400;
     message := Some "Invalid argument."%string |}.

(** An operation that counts its calls and always rejects with
    [error]. *)
Definition failing (error : ErrorObject) (calls : nat) :
    Settled ErrorObject string * nat :=
  (Rejected error, S calls).

(** An operation that counts its calls, rejects with [quota] while
    fewer than [k] calls came before, and then fulfils. *)
Definition flaky (k : nat) (calls : nat) :
    Settled ErrorObject string * nat :=
  if Nat.ltb calls k
  then (Rejected quota, S calls)
  else (Fulfilled "done"%string, S calls).

(** A service that counts its calls and always answers with the
    given responses. *)
Definition replying (images : GenerateImagesResponse)
    (reply : GenerateContentResponse) : GoogleGenAI nat :=
  {| models_generateImages := fun _ _ calls => (Fulfilled images, S calls);
     models_generateContent := fun _ _ calls => (Fulfilled reply, S calls);
     chats_sendMessage := fun _ _ _ calls => (Fulfilled reply, S calls) |}.

Definition one_png : GenerateImagesResponse :=
  {| generatedImages :=
       Some [ {| image := Some {| imageBytes := Some "iVBORw0KGgo="%string |} |} ] |}.

Definition no_images : GenerateImagesResponse :=
  {| generatedImages := Some [] |}.


Definition text_then_image : GenerateContentResponse :=
  {| candidates :=
       Some [ {| content := Some
                   {| content_role := Some "model"%string;
                      parts := Some
                        [ {| part_text := Some "Here is the edited image."%string;
                             inlineData := None |};
                          {| part_text := None;
                             inlineData :=
                               Some {| mimeType := Some "image/jpeg"%string;
                                       data := Some "/9j/4AAQ"%string |} |} ]
                   |} |} ];
     text := Some "Here is the edited image."%string |}.

Definition start : Page nat :=
  {| remote := 0%nat; API_KEY := Some "key"%string;
     sent := []; console_error := [] |}.

(** The component with a prompt typed in, and with an image uploaded
    besides. *)
Definition prompted : App.World (R := nat) :=
  {| App.view := App.setPrompt "a cat" App.initial;
     App.page := start; App.console := [] |}.

Definition uploaded : App.World (R := nat) :=
  {| App.view :=
       App.setUploadedImage (Some "data:image/jpeg;base64,/9j/4AAQ"%string)
         (App.setActiveTab App.edit (App.setPrompt "add a hat" App.initial));
     App.page := start; App.console := [] |}.

End Stub.

Unset Implicit Arguments.

(** ** Facts on the JavaScript primitives *)



Lemma lt_true (a b : number) : JS.lt a b = true <-> a < b.
Proof.
  unfold JS.lt. rewrite negb_true_iff. split.
  - intros H. apply Qnot_le_lt. intros Hle.
    apply Qle_bool_iff in Hle. congruence.
  - intros H. destruct (Qle_bool b a) eqn:E; [|reflexivity].
    apply Qle_bool_iff in E. exfalso. exact (Qlt_not_le _ _ H E).
Qed.

Lemma lt_false (a b : number) : JS.lt a b = false <-> b <= a.
Proof.
  unfold JS.lt. rewrite negb_false_iff. apply Qle_bool_iff.
Qed.

Lemma strict_eq_true (a b : number) : JS.strict_eq a b = true <-> a == b.
Proof. apply Qeq_bool_iff. Qed.

Lemma strict_eq_false (a b : number) : JS.strict_eq a b = false <-> ~ a == b.
Proof.
  unfold JS.strict_eq. split.
  - apply Qeq_bool_neq.
  - intros H. destruct (Qeq_bool a b) eqn:E; [|reflexivity].
    apply Qeq_bool_iff in E. contradiction.
Qed.

Lemma backoff_pow (k : nat) (delay : number) :
  backoff k delay == delay * 2 ^ Z.of_nat k.
Proof.
  revert delay. unfold number. induction k as [|k IH]; intros delay.
  - simpl. ring.
  - cbn [backoff]. rewrite IH, Nat2Z.inj_succ, <- Z.add_1_r.
    rewrite Qpower_plus by discriminate. simpl (2 ^ 1). ring.
Qed.

(** ** The loop, one iteration at a time *)

Section ExecutorFacts.

Context {W T : Type}.
Variable fn : W -> Settled ErrorObject T * W.
Variable attempts : number.

(** The body of the loop uses its continuation only through the values
    it returns. *)
Lemma loop_clause_ext (i : Z) (test : {y : bool | JS.lt (inject_Z i) attempts = y})
    (delay : number) (w : W)
    (f g : forall x : Z, number -> W ->
           (Z.to_nat (Qceiling attempts - x) < Z.to_nat (Qceiling attempts - i))%nat ->
           Settled Raised T * W * list Event) :
  (forall x d w' H, f x d w' H = g x d w' H) ->
  loop_clause_1 fn attempts i test delay w f
  = loop_clause_1 fn attempts i test delay w g.
Proof.
  intros Hfg. destruct test as [[|] e]; cbn; [|reflexivity].
  destruct (fn w) as [[v | error] w1]; [reflexivity|].
  rewrite Hfg. reflexivity.
Qed.

Lemma loop_clause (i : Z) (test : {y : bool | JS.lt (inject_Z i) attempts = y})
    (delay : number) (w : W) :
  loop_clause_1 fn attempts i test delay w
    (fun x d w' _ => loop fn attempts x d w')
  = if proj1_sig test then
      match fn w with
      | (Fulfilled v, w1) => (Fulfilled v, w1, [Invoke])
      | (Rejected error, w1) =>
          if JS.strict_eq (inject_Z i) (attempts - 1)
             || negb (isRetriableError error)
          then (Rejected (Rethrown error), w1, [Invoke])
          else
            let '(r, w2, evs) := loop fn attempts (i + 1) (delay * 2) w1 in
            (r, w2, Invoke :: Warn (i + 1) delay error :: Timeout delay :: evs)
      end
    else (Rejected (NewError max_retry_message), w, []).
Proof.
  destruct test as [[|] e]; cbn; [|reflexivity].
  destruct (fn w) as [[v | error] w1]; reflexivity.
Qed.

(** The loop unfolded once: the test [i < attempts], then the body of
    lines 14-28 or line 30. *)
Lemma loop_eq (i : Z) (delay : number) (w : W) :
  loop fn attempts i delay w =
  if JS.lt (inject_Z i) attempts then
    match fn w with
    | (Fulfilled v, w1) => (Fulfilled v, w1, [Invoke])
    | (Rejected error, w1) =>
        if JS.strict_eq (inject_Z i) (attempts - 1)
           || negb (isRetriableError error)
        then (Rejected (Rethrown error), w1, [Invoke])
        else
          let '(r, w2, evs) := loop fn attempts (i + 1) (delay * 2) w1 in
          (r, w2, Invoke :: Warn (i + 1) delay error :: Timeout delay :: evs)
    end
  else (Rejected (NewError max_retry_message), w, []).
Proof.
  unfold loop at 1. rewrite Subterm.FixWf_unfold.
  - cbn [pr1 pr2]. unfold loop_functional.
    exact (loop_clause i (Logic.inspect (JS.lt (inject_Z i) attempts)) delay w).
  - intros x f g Hfg. unfold loop_functional.
    apply loop_clause_ext. intros y d w' H. apply Hfg.
Qed.

Lemma loop_exhausted (i : Z) (delay : number) (w : W) :
  attempts <= inject_Z i ->
  loop fn attempts i delay w =
  (Rejected (NewError max_retry_message), w, []).
Proof.
  intros H. rewrite loop_eq. apply lt_false in H. rewrite H. reflexivity.
Qed.

Lemma loop_fulfilled (i : Z) (delay : number) (w w1 : W) (v : T) :
  inject_Z i < attempts ->
  fn w = (Fulfilled v, w1) ->
  loop fn attempts i delay w = (Fulfilled v, w1, [Invoke]).
Proof.
  intros H Hfn. rewrite loop_eq. apply lt_true in H. rewrite H.
  rewrite Hfn. reflexivity.
Qed.

Lemma loop_rethrow (i : Z) (delay : number) (w w1 : W) (error : ErrorObject) :
  inject_Z i < attempts ->
  fn w = (Rejected error, w1) ->
  inject_Z i == attempts - 1 \/ isRetriableError error = false ->
  loop fn attempts i delay w = (Rejected (Rethrown error), w1, [Invoke]).
Proof.
  intros H Hfn Hstop. rewrite loop_eq. apply lt_true in H. rewrite H.
  rewrite Hfn.
  destruct Hstop as [Hlast | Hfatal].
  - apply strict_eq_true in Hlast. rewrite Hlast. reflexivity.
  - rewrite Hfatal, orb_true_r. reflexivity.
Qed.

Lemma loop_retry (i : Z) (delay : number) (w w1 : W) (error : ErrorObject) :
  inject_Z (i + 1) < attempts ->
  fn w = (Rejected error, w1) ->
  isRetriableError error = true ->
  loop fn attempts i delay w =
  let '(r, w2, evs) := loop fn attempts (i + 1) (delay * 2) w1 in
  (r, w2, Invoke :: Warn (i + 1) delay error :: Timeout delay :: evs).
Proof.
  intros H Hfn Hretry. rewrite inject_Z_plus in H.
  assert (Hlt : JS.lt (inject_Z i) attempts = true).
  { apply lt_true. unfold number in *. change (inject_Z 1) with 1 in H. lra. }
  assert (Hne : JS.strict_eq (inject_Z i) (attempts - 1) = false).
  { apply strict_eq_false. unfold number in *.
    change (inject_Z 1) with 1 in H. lra. }
  rewrite loop_eq, Hlt, Hfn, Hne, Hretry.
  reflexivity.
Qed.

(** While attempts remain, a run of retriable failures is retried to
    its end. *)
Lemma loop_retries (w w' : W) (errors : list ErrorObject) :
  Failing fn w errors w' ->
  forall (i : Z) (delay : number),
  Forall (fun error => isRetriableError error = true) errors ->
  inject_Z (i + Z.of_nat (List.length errors)) < attempts ->
  loop fn attempts i delay w =
  let '(r, w2, evs) :=
    loop fn attempts (i + Z.of_nat (List.length errors))
      (backoff (List.length errors) delay) w' in
  (r, w2, (retry_trace errors i delay ++ evs)%list).
Proof.
  induction 1 as [w | w w1 w2 error rest Hfn Hrest IH];
    intros i delay Hall Hlt.
  - cbn [List.length retry_trace backoff Z.of_nat app]. rewrite Z.add_0_r.
    destruct (loop fn attempts i delay w) as [[r w2] evs]. reflexivity.
  - inversion Hall as [|? ? Hretry Hall']; subst.
    cbn [List.length] in Hlt. rewrite Nat2Z.inj_succ in Hlt.
    replace (i + Z.succ (Z.of_nat (List.length rest)))%Z
      with (i + 1 + Z.of_nat (List.length rest))%Z in Hlt by lia.
    rewrite (loop_retry i delay w w1 error); [| | exact Hfn | exact Hretry].
    2:{ rewrite inject_Z_plus in Hlt.
        assert (Hnat : 0 <= inject_Z (Z.of_nat (List.length rest))).
        { change 0 with (inject_Z 0). rewrite <- Zle_Qle. lia. }
        unfold number in *. lra. }
    rewrite (IH (i + 1)%Z (delay * 2) Hall' Hlt).
    cbn [List.length backoff retry_trace]. rewrite Nat2Z.inj_succ.
    replace (i + Z.succ (Z.of_nat (List.length rest)))%Z
      with (i + 1 + Z.of_nat (List.length rest))%Z by lia.
    destruct (loop fn attempts (i + 1 + Z.of_nat (List.length rest))
                (backoff (List.length rest) (delay * 2)) w2) as [[r w3] evs].
    reflexivity.
Qed.

End ExecutorFacts.

(** ** Runs of failures and their traces *)

Lemma Failing_app {W T : Type} (fn : W -> Settled ErrorObject T * W)
    (front back : list ErrorObject) (w w' : W) :
  Failing fn w (front ++ back)%list w' ->
  exists w1, Failing fn w front w1 /\ Failing fn w1 back w'.
Proof.
  revert w. induction front as [|error front IH]; intros w H.
  - exists w. split; [constructor | exact H].
  - inversion H as [|? w1 ? ? ? Hfn Hrest]; subst.
    destruct (IH _ Hrest) as [w2 [Hfront Hback]].
    exists w2. split; [econstructor; eassumption | exact Hback].
Qed.

Lemma Failing_last {W T : Type} (fn : W -> Settled ErrorObject T * W)
    (front : list ErrorObject) (final : ErrorObject) (w w' : W) :
  Failing fn w (front ++ [final])%list w' ->
  exists w1, Failing fn w front w1 /\ fn w1 = (Rejected final, w').
Proof.
  intros H. destruct (Failing_app fn front [final] w w' H) as [w1 [Hfront Hback]].
  exists w1. split; [exact Hfront|].
  inversion Hback as [|? ? ? ? ? Hfn Hnil]; subst.
  inversion Hnil; subst. exact Hfn.
Qed.

Lemma invocations_retry_trace (errors : list ErrorObject) (i : Z)
    (delay : number) (evs : list Event) :
  invocations (retry_trace errors i delay ++ evs)%list
  = (List.length errors + invocations evs)%nat.
Proof.
  revert i delay. induction errors as [|error rest IH]; intros i delay.
  - reflexivity.
  - cbn [retry_trace app invocations List.length]. rewrite IH. reflexivity.
Qed.

Lemma delays_retry_trace (errors : list ErrorObject) (i : Z)
    (delay : number) (evs : list Event) :
  delays (retry_trace errors i delay ++ evs)%list
  = (map (fun k => backoff k delay) (seq 0 (List.length errors))
     ++ delays evs)%list.
Proof.
  revert i delay. induction errors as [|error rest IH]; intros i delay.
  - reflexivity.
  - cbn [retry_trace app delays List.length seq map]. rewrite IH.
    rewrite <- seq_shift, map_map. reflexivity.
Qed.

Lemma nth_delay (n k : nat) (delay : number) (rest : list number) :
  (k < n)%nat ->
  nth_error (map (fun j => backoff j delay) (seq 0 n) ++ rest)%list k
  = Some (backoff k delay).
Proof.
  intros Hk. rewrite nth_error_app1 by (rewrite length_map, length_seq; exact Hk).
  rewrite nth_error_map, nth_error_seq.
  apply Nat.ltb_lt in Hk. rewrite Hk. reflexivity.
Qed.

(** ** Complete runs of the executor *)

Section Runs.

Context {W T : Type}.
Variable fn : W -> Settled ErrorObject T * W.

(** Every attempt of an integer bound fails, the earlier ones with
    retriable errors: the last error is thrown again at line 23. *)
Lemma run_all_failed (n : Z) (delay : number) (w w' : W)
    (front : list ErrorObject) (final : ErrorObject) :
  Failing fn w (front ++ [final])%list w' ->
  Retriable front ->
  (Z.of_nat (List.length front) + 1 = n)%Z ->
  loop fn (inject_Z n) 0 delay w =
  (Rejected (Rethrown final), w',
   (retry_trace front 0 delay ++ [Invoke])%list).
Proof.
  intros Hfail Hretry Hn.
  destruct (Failing_last fn front final w w' Hfail) as [w1 [Hfront Hfn]].
  rewrite (loop_retries fn (inject_Z n) w w1 front Hfront 0 delay Hretry)
    by (rewrite <- Zlt_Qlt; lia).
  rewrite Z.add_0_l.
  rewrite (loop_rethrow fn (inject_Z n) _ _ w1 w' final);
    [reflexivity | rewrite <- Zlt_Qlt; lia | exact Hfn |].
  left. rewrite <- Hn, inject_Z_plus. unfold number.
  change (inject_Z 1) with 1. ring.
Qed.

(** Retriable failures with attempts to spare, then a success. *)
Lemma run_then_fulfilled (attempts delay : number) (w w1 w2 : W)
    (errors : list ErrorObject) (v : T) :
  Failing fn w errors w1 ->
  Retriable errors ->
  fn w1 = (Fulfilled v, w2) ->
  inject_Z (Z.of_nat (List.length errors)) < attempts ->
  loop fn attempts 0 delay w =
  (Fulfilled v, w2, (retry_trace errors 0 delay ++ [Invoke])%list).
Proof.
  intros Hfail Hretry Hfn Hlt.
  rewrite (loop_retries fn attempts w w1 errors Hfail 0 delay Hretry)
    by (rewrite Z.add_0_l; exact Hlt).
  rewrite Z.add_0_l.
  rewrite (loop_fulfilled fn attempts _ _ w1 w2 v Hlt Hfn).
  reflexivity.
Qed.

(** An attempt is made whenever the bound is positive. *)
Lemma loop_invokes (attempts : number) (i : Z) (delay : number) (w : W) :
  inject_Z i < attempts ->
  (1 <= invocations (snd (loop fn attempts i delay w)))%nat.
Proof.
  intros Hlt. rewrite loop_eq. apply lt_true in Hlt. rewrite Hlt.
  destruct (fn w) as [[v | error] w1]; [simpl; lia|].
  destruct (JS.strict_eq (inject_Z i) (attempts - 1)
            || negb (isRetriableError error)); [simpl; lia|].
  destruct (loop fn attempts (i + 1) (delay * 2) w1) as [[r w2] evs].
  simpl. lia.
Qed.

(** With an integer bound, line 30 is reached from the loop only when
    the counter has already passed the bound. *)
Lemma loop_new_error (n : Z) (k : nat) :
  forall (i : Z) (delay : number) (w : W),
  (n - i <= Z.of_nat k)%Z ->
  fst (fst (loop fn (inject_Z n) i delay w))
    = Rejected (NewError max_retry_message) ->
  (n <= i)%Z.
Proof.
  induction k as [|k IH]; intros i delay w Hk Hout; [lia|].
  destruct (Z_lt_le_dec i n) as [Hlt | Hge]; [exfalso | exact Hge].
  rewrite loop_eq in Hout.
  assert (Hin : JS.lt (inject_Z i) (inject_Z n) = true)
    by (apply lt_true; rewrite <- Zlt_Qlt; exact Hlt).
  rewrite Hin in Hout.
  destruct (fn w) as [[v | error] w1]; [discriminate|].
  destruct (JS.strict_eq (inject_Z i) (inject_Z n - 1)) eqn:Hlast;
    [discriminate|].
  destruct (negb (isRetriableError error)); [discriminate|].
  cbn [orb] in Hout.
  assert (Hnext : (n <= i + 1)%Z).
  { apply (IH (i + 1)%Z (delay * 2) w1); [lia|].
    destruct (loop fn (inject_Z n) (i + 1) (delay * 2) w1) as [[r w2] evs].
    exact Hout. }
  apply strict_eq_false in Hlast. apply Hlast.
  assert (i = n - 1)%Z as -> by lia.
  unfold Zminus. rewrite inject_Z_plus. unfold number. 
  change (inject_Z (- (1))) with (- (1)). ring.
Qed.

End Runs.

(** ** The properties of the retry executor *)

Lemma Retriable_front (errors : list ErrorObject) :
  Retriable errors -> Retriable (removelast errors).
Proof.
  unfold Retriable. rewrite !Forall_forall. intros H error Hin.
  apply H. destruct errors as [|e errors]; [exact Hin|].
  rewrite (app_removelast_last e (l := e :: errors)) by discriminate.
  apply in_or_app. left. exact Hin.
Qed.

(** C1. An operation that fails with a retriable error on every attempt
    of an integer bound [maxAttempts >= 1] is called exactly
    [maxAttempts] times; there are [maxAttempts - 1] waits, each between
    two calls, and the wait before the k-th retry is
    [initialDelay * 2^(k-1)].  Left out, the bound and the initial delay
    are 3 and 1000. *)
Theorem backoff_schedule (W T : Type) (fn : W -> Settled ErrorObject T * W)
    (maxAttempts : Z) (initialDelay : number) (w w' : W)
    (errors : list ErrorObject) :
  (1 <= maxAttempts)%Z ->
  Failing fn w errors w' ->
  Retriable errors ->
  Z.of_nat (List.length errors) = maxAttempts ->
  let run :=
    withExponentialBackoff fn (Some (inject_Z maxAttempts))
      (Some initialDelay) w in
  Z.of_nat (invocations (events run)) = maxAttempts /\
  events run
    = (retry_trace (removelast errors) 0 initialDelay ++ [Invoke])%list /\
  Z.of_nat (List.length (delays (events run))) = (maxAttempts - 1)%Z /\
  (forall k : Z, (1 <= k <= maxAttempts - 1)%Z ->
     exists q, nth_error (delays (events run)) (Z.to_nat (k - 1)) = Some q
               /\ q == initialDelay * 2 ^ (k - 1)) /\
  withExponentialBackoff fn None None w
    = withExponentialBackoff fn (Some 3) (Some 1000) w.
Proof.
  intros Hpos Hfail Hretry Hlen run.
  assert (Hne : errors <> []) by (intros ->; simpl in Hlen; lia).
  pose proof (app_removelast_last (mkError "" None None) Hne) as Hsplit.
  set (front := removelast errors) in *.
  set (final := last errors (mkError "" None None)) in *.
  assert (Hfront : (Z.of_nat (List.length front) + 1 = maxAttempts)%Z).
  { rewrite <- Hlen, Hsplit, length_app. simpl. lia. }
  assert (Hrun : run = (Rejected (Rethrown final), w',
                        (retry_trace front 0 initialDelay ++ [Invoke])%list)).
  { subst run. unfold withExponentialBackoff.
    apply run_all_failed; [rewrite <- Hsplit; exact Hfail | | exact Hfront].
    apply Retriable_front. exact Hretry. }
  rewrite Hrun. unfold events. cbn [snd].
  rewrite invocations_retry_trace, delays_retry_trace. cbn [invocations delays].
  rewrite app_nil_r, length_map, length_seq.
  repeat split; try lia.
  intros k Hk. exists (backoff (Z.to_nat (k - 1)) initialDelay). split.
  - rewrite <- (app_nil_r (map _ _)). apply nth_delay. lia.
  - rewrite backoff_pow, Z2Nat.id by lia. reflexivity.
Qed.

Lemma backoff_schedule_witness :
  (1 <= 3)%Z /\
  Failing (Stub.failing Stub.quota) 0%nat
    [Stub.quota; Stub.quota; Stub.quota] 3%nat /\
  Retriable [Stub.quota; Stub.quota; Stub.quota] /\
  Z.of_nat (List.length [Stub.quota; Stub.quota; Stub.quota]) = 3%Z /\
  let run :=
    withExponentialBackoff (Stub.failing Stub.quota) (Some (inject_Z 3))
      (Some 1000) 0%nat in
  Z.of_nat (invocations (events run)) = 3%Z /\
  events run
    = (retry_trace (removelast [Stub.quota; Stub.quota; Stub.quota]) 0 1000
       ++ [Invoke])%list /\
  Z.of_nat (List.length (delays (events run))) = (3 - 1)%Z /\
  (forall k : Z, (1 <= k <= 3 - 1)%Z ->
     exists q, nth_error (delays (events run)) (Z.to_nat (k - 1)) = Some q
               /\ q == 1000 * 2 ^ (k - 1)) /\
  withExponentialBackoff (Stub.failing Stub.quota) None None 0%nat
    = withExponentialBackoff (Stub.failing Stub.quota) (Some 3) (Some 1000)
        0%nat.
Proof.
  assert (H1 : (1 <= 3)%Z) by lia.
  assert (H2 : Failing (Stub.failing Stub.quota) 0%nat
                 [Stub.quota; Stub.quota; Stub.quota] 3%nat)
    by (repeat (econstructor; [reflexivity|]); constructor).
  assert (H3 : Retriable [Stub.quota; Stub.quota; Stub.quota])
    by (repeat constructor).
  assert (H4 : Z.of_nat (List.length [Stub.quota; Stub.quota; Stub.quota])
               = 3%Z) by reflexivity.
  split; [exact H1 | split; [exact H2 | split; [exact H3 | split; [exact H4|]]]].
  exact (backoff_schedule nat string (Stub.failing Stub.quota) 3 1000
           0%nat 3%nat _ H1 H2 H3 H4).
Defined.


(** C3, as the code has it. When every one of the [maxAttempts >= 1]
    attempts fails with a retriable error, the executor throws the
    operation's own last error, the same value, and not the "Maximum
    retry attempts reached." error, after exactly [maxAttempts] calls. *)
Theorem exhaustion_rethrows_last_error (W T : Type)
    (fn : W -> Settled ErrorObject T * W) (maxAttempts : Z)
    (delay : number) (w w' : W) (front : list ErrorObject)
    (final : ErrorObject) :
  (1 <= maxAttempts)%Z ->
  Failing fn w (front ++ [final])%list w' ->
  Retriable (front ++ [final])%list ->
  Z.of_nat (List.length (front ++ [final])%list) = maxAttempts ->
  let run :=
    withExponentialBackoff fn (Some (inject_Z maxAttempts)) (Some delay) w in
  outcome run = Rejected (Rethrown final) /\
  outcome run <> Rejected (NewError max_retry_message) /\
  Z.of_nat (invocations (events run)) = maxAttempts /\
  final_state run = w'.
Proof.
  intros _ Hfail Hretry Hlen run.
  assert (Hrun : run = (Rejected (Rethrown final), w',
                        (retry_trace front 0 delay ++ [Invoke])%list)).
  { subst run. unfold withExponentialBackoff. apply run_all_failed.
    - exact Hfail.
    - unfold Retriable in *. apply Forall_app in Hretry. tauto.
    - rewrite length_app in Hlen. simpl in Hlen. lia. }
  rewrite Hrun. unfold outcome, final_state, events. cbn [fst snd].
  rewrite invocations_retry_trace. cbn [invocations].
  rewrite length_app in Hlen. simpl in Hlen.
  repeat split; [discriminate | lia].
Qed.

Lemma exhaustion_rethrows_last_error_witness :
  (1 <= 3)%Z /\
  Failing (Stub.failing Stub.quota) 0%nat
    ([Stub.quota; Stub.quota] ++ [Stub.quota])%list 3%nat /\
  Retriable ([Stub.quota; Stub.quota] ++ [Stub.quota])%list /\
  Z.of_nat (List.length ([Stub.quota; Stub.quota] ++ [Stub.quota])%list)
    = 3%Z /\
  let run :=
    withExponentialBackoff (Stub.failing Stub.quota) (Some (inject_Z 3))
      (Some 1000) 0%nat in
  outcome run = Rejected (Rethrown Stub.quota) /\
  outcome run <> Rejected (NewError max_retry_message) /\
  Z.of_nat (invocations (events run)) = 3%Z /\
  final_state run = 3%nat.
Proof.
  assert (H1 : (1 <= 3)%Z) by lia.
  assert (H2 : Failing (Stub.failing Stub.quota) 0%nat
                 ([Stub.quota; Stub.quota] ++ [Stub.quota])%list 3%nat)
    by (repeat (econstructor; [reflexivity|]); constructor).
  assert (H3 : Retriable ([Stub.quota; Stub.quota] ++ [Stub.quota])%list)
    by (repeat constructor).
  assert (H4 : Z.of_nat
                 (List.length ([Stub.quota; Stub.quota] ++ [Stub.quota])%list)
               = 3%Z) by reflexivity.
  split; [exact H1 | split; [exact H2 | split; [exact H3 | split; [exact H4|]]]].
  exact (exhaustion_rethrows_last_error nat string (Stub.failing Stub.quota)
           3 1000 0%nat 3%nat [Stub.quota; Stub.quota] Stub.quota
           H1 H2 H3 H4).
Defined.

(** C3, as stated, fails: with the default policy, three retriable
    failures in a row surface the operation's error, not the "Maximum
    retry attempts reached." error. *)
Lemma exhaustion_error_not_surfaced :
  Failing (Stub.failing Stub.quota) 0%nat
    [Stub.quota; Stub.quota; Stub.quota] 3%nat /\
  Retriable [Stub.quota; Stub.quota; Stub.quota] /\
  outcome (withExponentialBackoff (Stub.failing Stub.quota) None None 0%nat)
    = Rejected (Rethrown Stub.quota) /\
  outcome (withExponentialBackoff (Stub.failing Stub.quota) None None 0%nat)
    <> Rejected (NewError max_retry_message).
Proof.
  split; [repeat (econstructor; [reflexivity|]); constructor|].
  split; [repeat constructor|].
  split; [vm_compute; reflexivity | vm_compute; discriminate].
Qed.

(** C4. When the first failure of the operation is not retriable, the
    executor has called it exactly once, waits for nothing, and throws
    that same error; the state is the one the single call left. *)
Theorem fatal_error_propagates (W T : Type)
    (fn : W -> Settled ErrorObject T * W) (attempts delay : number)
    (w w1 : W) (error : ErrorObject) :
  0 < attempts ->
  fn w = (Rejected error, w1) ->
  isRetriableError error = false ->
  let run := withExponentialBackoff fn (Some attempts) (Some delay) w in
  run = (Rejected (Rethrown error), w1, [Invoke]) /\
  invocations (events run) = 1%nat /\
  delays (events run) = [] /\
  withExponentialBackoff fn None None w
    = (Rejected (Rethrown error), w1, [Invoke]).
Proof.
  intros Hpos Hfn Hfatal run.
  assert (Hrun : run = (Rejected (Rethrown error), w1, [Invoke])).
  { subst run. unfold withExponentialBackoff.
    apply loop_rethrow; [exact Hpos | exact Hfn | right; exact Hfatal]. }
  rewrite Hrun. repeat split.
  unfold withExponentialBackoff.
  apply loop_rethrow; [reflexivity | exact Hfn | right; exact Hfatal].
Qed.

Lemma fatal_error_propagates_witness :
  0 < 3 /\
  Stub.failing Stub.bad_request 0%nat = (Rejected Stub.bad_request, 1%nat) /\
  isRetriableError Stub.bad_request = false /\
  let run :=
    withExponentialBackoff (Stub.failing Stub.bad_request) (Some 3)
      (Some 1000) 0%nat in
  run = (Rejected (Rethrown Stub.bad_request), 1%nat, [Invoke]) /\
  invocations (events run) = 1%nat /\
  delays (events run) = [] /\
  withExponentialBackoff (Stub.failing Stub.bad_request) None None 0%nat
    = (Rejected (Rethrown Stub.bad_request), 1%nat, [Invoke]).
Proof.
  assert (H1 : 0 < 3) by reflexivity.
  assert (H2 : Stub.failing Stub.bad_request 0%nat
               = (Rejected Stub.bad_request, 1%nat)) by reflexivity.
  assert (H3 : isRetriableError Stub.bad_request = false) by reflexivity.
  split; [exact H1 | split; [exact H2 | split; [exact H3|]]].
  exact (fatal_error_propagates nat string (Stub.failing Stub.bad_request)
           3 1000 0%nat 1%nat Stub.bad_request H1 H2 H3).
Defined.

(** C5. When the operation succeeds on attempt [k], within the bound,
    after [k - 1] retriable failures, the executor returns that value;
    the successful call is its [k]-th and last, and the state is the one
    that call left. *)
Theorem success_after_retries (W T : Type)
    (fn : W -> Settled ErrorObject T * W) (attempts delay : number)
    (w w1 w2 : W) (errors : list ErrorObject) (v : T) :
  Failing fn w errors w1 ->
  Retriable errors ->
  fn w1 = (Fulfilled v, w2) ->
  inject_Z (Z.of_nat (List.length errors) + 1) <= attempts ->
  let run := withExponentialBackoff fn (Some attempts) (Some delay) w in
  outcome run = Fulfilled v /\
  final_state run = w2 /\
  invocations (events run) = (List.length errors + 1)%nat /\
  events run = (retry_trace errors 0 delay ++ [Invoke])%list.
Proof.
  intros Hfail Hretry Hfn Hk run.
  assert (Hrun : run = (Fulfilled v, w2,
                        (retry_trace errors 0 delay ++ [Invoke])%list)).
  { subst run. unfold withExponentialBackoff.
    apply (run_then_fulfilled fn attempts delay w w1 w2 errors v);
      try assumption.
    rewrite inject_Z_plus in Hk. unfold number in *.
    change (inject_Z 1) with 1 in Hk. lra. }
  rewrite Hrun. unfold outcome, final_state, events. cbn [fst snd].
  rewrite invocations_retry_trace. repeat split.
Qed.

Lemma success_after_retries_witness :
  Failing (Stub.flaky 2) 0%nat [Stub.quota; Stub.quota] 2%nat /\
  Retriable [Stub.quota; Stub.quota] /\
  Stub.flaky 2 2%nat = (Fulfilled "done"%string, 3%nat) /\
  inject_Z (Z.of_nat (List.length [Stub.quota; Stub.quota]) + 1) <= 3 /\
  let run :=
    withExponentialBackoff (Stub.flaky 2) (Some 3) (Some 1000) 0%nat in
  outcome run = Fulfilled "done"%string /\
  final_state run = 3%nat /\
  invocations (events run) = (List.length [Stub.quota; Stub.quota] + 1)%nat /\
  events run = (retry_trace [Stub.quota; Stub.quota] 0 1000 ++ [Invoke])%list.
Proof.
  assert (H1 : Failing (Stub.flaky 2) 0%nat [Stub.quota; Stub.quota] 2%nat)
    by (repeat (econstructor; [reflexivity|]); constructor).
  assert (H2 : Retriable [Stub.quota; Stub.quota]) by (repeat constructor).
  assert (H3 : Stub.flaky 2 2%nat = (Fulfilled "done"%string, 3%nat))
    by reflexivity.
  assert (H4 : inject_Z (Z.of_nat (List.length [Stub.quota; Stub.quota]) + 1)
               <= 3) by (vm_compute; discriminate).
  split; [exact H1 | split; [exact H2 | split; [exact H3 | split; [exact H4|]]]].
  exact (success_after_retries nat string (Stub.flaky 2) 3 1000
           0%nat 2%nat 3%nat [Stub.quota; Stub.quota] "done"%string
           H1 H2 H3 H4).
Defined.

(** C9, as the code has it. With [attempts <= 0] the loop body never
    runs: the operation is not called and the executor throws the
    "Maximum retry attempts reached." error of line 30.  Among integer
    bounds these are the only ones for which that error is thrown. *)
Theorem defensive_error_without_attempts (W T : Type)
    (fn : W -> Settled ErrorObject T * W) (delay : option number) (w : W) :
  (forall attempts : number,
     attempts <= 0 ->
     withExponentialBackoff fn (Some attempts) delay w
       = (Rejected (NewError max_retry_message), w, [])) /\
  (forall n : Z,
     outcome (withExponentialBackoff fn (Some (inject_Z n)) delay w)
       = Rejected (NewError max_retry_message)
     <-> (n <= 0)%Z).
Proof.
  split.
  - intros attempts Hle. unfold withExponentialBackoff.
    apply loop_exhausted. exact Hle.
  - intros n. split.
    + unfold withExponentialBackoff, outcome. intros Hout.
      pose proof (loop_new_error fn n (Z.to_nat n) 0
                    (match delay with Some d => d | None => 1000 end) w)
        as Honly.
      apply Honly; [lia | exact Hout].
    + intros Hle. unfold withExponentialBackoff.
      rewrite loop_exhausted; [reflexivity|].
      change 0 with (inject_Z 0). rewrite <- Zle_Qle. exact Hle.
Qed.

(** C9, as stated, fails: a bound of 2.5 is positive, and after three
    retriable failures the loop ends and line 30 throws the "Maximum
    retry attempts reached." error. *)
Lemma defensive_error_with_fractional_attempts :
  ~ (5 # 2) <= 0 /\
  Failing (Stub.failing Stub.quota) 0%nat
    [Stub.quota; Stub.quota; Stub.quota] 3%nat /\
  withExponentialBackoff (Stub.failing Stub.quota) (Some (5 # 2)) None 0%nat
    = (Rejected (NewError max_retry_message), 3%nat,
       retry_trace [Stub.quota; Stub.quota; Stub.quota] 0 1000) /\
  invocations
    (events
       (withExponentialBackoff (Stub.failing Stub.quota) (Some (5 # 2))
          None 0%nat)) = 3%nat.
Proof.
  split; [intros H; vm_compute in H; apply H; reflexivity|].
  split; [repeat (econstructor; [reflexivity|]); constructor|].
  split; vm_compute; reflexivity.
Qed.

(** ** The three calls *)

(** Retriable failures with attempts to spare, then a failure that is
    not retriable. *)
Lemma run_then_fatal {W T : Type} (fn : W -> Settled ErrorObject T * W)
    (attempts delay : number) (w w1 w2 : W) (errors : list ErrorObject)
    (error : ErrorObject) :
  Failing fn w errors w1 ->
  Retriable errors ->
  fn w1 = (Rejected error, w2) ->
  isRetriableError error = false ->
  inject_Z (Z.of_nat (List.length errors)) < attempts ->
  loop fn attempts 0 delay w =
  (Rejected (Rethrown error), w2, (retry_trace errors 0 delay ++ [Invoke])%list).
Proof.
  intros Hfail Hretry Hfn Hfatal Hlt.
  rewrite (loop_retries fn attempts w w1 errors Hfail 0 delay Hretry)
    by (rewrite Z.add_0_l; exact Hlt).
  rewrite Z.add_0_l.
  rewrite (loop_rethrow fn attempts _ _ w1 w2 error Hlt Hfn (or_intror Hfatal)).
  reflexivity.
Qed.

Lemma within_default_attempts (errors : list ErrorObject) :
  (List.length errors < 3)%nat ->
  inject_Z (Z.of_nat (List.length errors)) < 3.
Proof.
  intros H. change 3 with (inject_Z 3). rewrite <- Zlt_Qlt. lia.
Qed.

Section CallFacts.

Context {R : Type}.
Variable ai : GoogleGenAI R.

(** What the extraction of lines 62-65 yields, case by case. *)
Lemma generated_image_cases (response : GenerateImagesResponse) :
  match generatedImages response with
  | None | Some [] => generated_image response = Fulfilled None
  | Some (first :: _) =>
      match image first with
      | None =>
          generated_image response = Rejected (TypeError_reading "imageBytes")
      | Some img =>
          match imageBytes img with
          | None | Some EmptyString => generated_image response = Fulfilled None
          | Some (String c bytes) =>
              generated_image response
              = Fulfilled (Some ("data:image/png;base64," ++ String c bytes)%string)
          end
      end
  end.
Proof.
  unfold generated_image.
  destruct (generatedImages response) as [[|first rest]|]; try reflexivity.
  destruct (image first) as [img|]; try reflexivity.
  destruct (imageBytes img) as [[|c bytes]|]; reflexivity.
Qed.

(** An attempt of [generateImageGemini] whose remote call succeeds. *)
Lemma generateImage_attempt_fulfilled (prompt ratio : string) (page : Page R)
    (response : GenerateImagesResponse) (r : R) :
  models_generateImages ai (apiKey page) (imagen_request prompt ratio)
    (remote page) = (Fulfilled response, r) ->
  let page1 :=
    after_request (GenerateImages (apiKey page) (imagen_request prompt ratio))
      r page in
  generateImage_attempt ai prompt ratio page =
  match generated_image response with
  | Fulfilled url => (Fulfilled url, page1)
  | Rejected error =>
      (Rejected error,
       log_error "Imagen image generation error:" error page1)
  end.
Proof.
  intros Hcall. unfold generateImage_attempt. cbv zeta. rewrite Hcall.
  reflexivity.
Qed.

(** C7. When the remote call of [generateImageGemini] succeeds, at once
    or after retried failures, and the response has no generated images
    (no list or an empty one) or the first image has no bytes (none or
    the empty string), the call returns [undefined] and throws nothing;
    when the first image has bytes it returns them behind
    ["data:image/png;base64,"]. *)
Theorem generate_absent_without_image_data (prompt ratio : string)
    (page page1 : Page R) (errors : list ErrorObject)
    (response : GenerateImagesResponse) (r : R) :
  Failing (generateImage_attempt ai prompt ratio) page errors page1 ->
  Retriable errors ->
  (List.length errors < 3)%nat ->
  models_generateImages ai (apiKey page1) (imagen_request prompt ratio)
    (remote page1) = (Fulfilled response, r) ->
  let run := generateImageGemini ai prompt ratio page in
  (generatedImages response = None \/ generatedImages response = Some [] ->
   outcome run = Fulfilled None) /\
  (forall first rest img,
     generatedImages response = Some (first :: rest) ->
     image first = Some img ->
     imageBytes img = None \/ imageBytes img = Some ""%string ->
     outcome run = Fulfilled None) /\
  (forall first rest img c bytes,
     generatedImages response = Some (first :: rest) ->
     image first = Some img ->
     imageBytes img = Some (String c bytes) ->
     outcome run
     = Fulfilled (Some ("data:image/png;base64," ++ String c bytes)%string)).
Proof.
  intros Hfail Hretry Hlen Hcall run.
  pose proof (generateImage_attempt_fulfilled prompt ratio page1 response r
                Hcall) as Hattempt.
  cbv zeta in Hattempt.
  pose proof (generated_image_cases response) as Hcases.
  assert (Hrun : forall url, generated_image response = Fulfilled url ->
                 outcome run = Fulfilled url).
  { intros url Hurl. rewrite Hurl in Hattempt. subst run.
    unfold generateImageGemini, withExponentialBackoff.
    rewrite (run_then_fulfilled _ 3 1000 page page1 _ errors url Hfail Hretry
               Hattempt (within_default_attempts errors Hlen)).
    reflexivity. }
  split; [|split].
  - intros [Hnone | Hnil]; apply Hrun; rewrite ?Hnone, ?Hnil in Hcases;
      exact Hcases.
  - intros first rest img Hlist Himage [Hbytes | Hbytes]; apply Hrun;
      rewrite Hlist, Himage, Hbytes in Hcases; exact Hcases.
  - intros first rest img c bytes Hlist Himage Hbytes. apply Hrun.
    rewrite Hlist, Himage, Hbytes in Hcases. exact Hcases.
Qed.


(** The scan of lines 107-112 stops at the first part with inline data. *)
Lemma edited_image_first (pre post : list Part) (part : Part) (blob : Blob) :
  Forall (fun p => inlineData p = None) pre ->
  inlineData part = Some blob ->
  edited_image (pre ++ part :: post)
  = Some ("data:image/png;base64," ++ JS.interpolate (data blob))%string.
Proof.
  intros Hpre Hpart. induction Hpre as [|p pre Hp _ IH]; cbn [app edited_image].
  - rewrite Hpart. reflexivity.
  - rewrite Hp. exact IH.
Qed.

Lemma edited_image_none (ps : list Part) :
  Forall (fun p => inlineData p = None) ps -> edited_image ps = None.
Proof.
  induction 1 as [|p ps Hp _ IH]; cbn [edited_image]; [reflexivity|].
  rewrite Hp. exact IH.
Qed.

(** C6. When the remote call of [editImageGemini] succeeds, at once or
    after retried failures, the call looks at the content parts of the
    first candidate only, in their order, and returns the data of the
    first part that has inline data, behind ["data:image/png;base64,"]
    whatever MIME type that part declares (the text "undefined" stands
    for data that is missing).  It returns [undefined], and throws
    nothing, when no part has inline data, and also when the response
    has no candidates, an empty list of them, a first candidate without
    content, or content without parts. *)
Theorem edit_returns_first_inline_image (prompt base64ImageData : string)
    (mime : option string) (page page1 : Page R)
    (errors : list ErrorObject) (response : GenerateContentResponse) (r : R) :
  Failing
    (editImage_attempt ai prompt base64ImageData (mimeType_or_default mime))
    page errors page1 ->
  Retriable errors ->
  (List.length errors < 3)%nat ->
  models_generateContent ai (apiKey page1)
    (edit_request prompt base64ImageData (mimeType_or_default mime))
    (remote page1) = (Fulfilled response, r) ->
  let run := editImageGemini ai prompt base64ImageData mime page in
  (candidates response = None \/ candidates response = Some [] ->
   outcome run = Fulfilled None) /\
  (forall first rest,
     candidates response = Some (first :: rest) ->
     (content first = None -> outcome run = Fulfilled None) /\
     (forall c,
        content first = Some c ->
        (parts c = None -> outcome run = Fulfilled None) /\
        (forall ps,
           parts c = Some ps ->
           (Forall (fun p => inlineData p = None) ps ->
            outcome run = Fulfilled None) /\
           (forall pre post part declared,
              ps = (pre ++ part :: post)%list ->
              Forall (fun p => inlineData p = None) pre ->
              (forall bytes,
                 inlineData part
                 = Some {| mimeType := declared; data := Some bytes |} ->
                 outcome run
                 = Fulfilled
                     (Some ("data:image/png;base64," ++ bytes)%string)) /\
              (inlineData part
               = Some {| mimeType := declared; data := None |} ->
               outcome run
               = Fulfilled
                   (Some "data:image/png;base64,undefined"%string)))))).
Proof.
  intros Hfail Hretry Hlen Hcall run.
  assert (Hrun : outcome run
                 = Fulfilled (edited_image (response_parts response))).
  { subst run. unfold editImageGemini, withExponentialBackoff.
    rewrite (run_then_fulfilled _ 3 1000 page page1
               (after_request
                  (GenerateContent (apiKey page1)
                     (edit_request prompt base64ImageData
                        (mimeType_or_default mime))) r page1)
               errors (edited_image (response_parts response)) Hfail Hretry);
      [reflexivity | | exact (within_default_attempts errors Hlen)].
    unfold editImage_attempt. cbv zeta. rewrite Hcall. reflexivity. }
  rewrite Hrun. unfold response_parts. split.
  - intros [-> | ->]; reflexivity.
  - intros first rest ->. split.
    + intros ->. reflexivity.
    + intros c ->. split.
      * intros ->. reflexivity.
      * intros ps ->. split.
        -- intros Hnone. rewrite (edited_image_none _ Hnone). reflexivity.
        -- intros pre post part declared -> Hpre. split.
           ++ intros bytes Hpart.
              rewrite (edited_image_first pre post part _ Hpre Hpart).
              reflexivity.
           ++ intros Hpart.
              rewrite (edited_image_first pre post part _ Hpre Hpart).
              reflexivity.
Qed.

(** C8. When the remote call of [sendChatMessageGemini] succeeds, at
    once or after retried failures, the request that was sent creates a
    chat on "gemini-2.5-flash" whose system instruction is the one part
    holding the persona text, and whose history has one entry per prior
    message, in order, each with the role of that message ("user" or
    "model") and one part holding its text; the new message is the
    message handed to [sendMessage], so that the context the service is
    asked to continue is exactly the prior turns followed by the new
    message as a user turn.  The call returns the text of the response
    as it is, [undefined] when there is none. *)
Theorem chat_context_and_reply (messages : list ChatMessage)
    (newMessage : string) (page page1 : Page R)
    (errors : list ErrorObject) (response : GenerateContentResponse) (r : R) :
  Failing (sendChatMessage_attempt ai messages newMessage) page errors page1 ->
  Retriable errors ->
  (List.length errors < 3)%nat ->
  chats_sendMessage ai (apiKey page1) (chat_session messages)
    {| send_message := newMessage |} (remote page1) = (Fulfilled response, r) ->
  let run := sendChatMessageGemini ai messages newMessage page in
  let turn (speaker words : string) : Content :=
    {| content_role := Some speaker;
       parts := Some [ {| part_text := Some words; inlineData := None |} ] |} in
  let prior (msg : ChatMessage) : Content :=
    turn match role msg with
         | user => "user"%string
         | model => "model"%string
         end
         (message_text msg) in
  outcome run = Fulfilled (text response) /\
  (forall reply, text response = Some reply ->
     outcome run = Fulfilled (Some reply)) /\
  (text response = None -> outcome run = Fulfilled None) /\
  (exists chat params,
     sent (final_state run)
     = (sent page1 ++ [ChatSendMessage (apiKey page1) chat params])%list /\
     params = {| send_message := newMessage |} /\
     chat_model chat = "gemini-2.5-flash"%string /\
     systemInstruction chat
     = {| content_role := None;
          parts := Some
            [ {| part_text :=
                   Some "You are 'Digi AI Assistant', a highly professional, mannerful, and helpful problem-solving AI. Your goal is to provide clear, effective, and supportive solutions to user problems. Maintain a warm, encouraging, and sophisticated tone, similar to a premium consultant or mentor."%string;
                 inlineData := None |} ] |} /\
     history chat = map prior messages /\
     List.length (history chat) = List.length messages /\
     (forall (i : nat) (msg : ChatMessage),
        nth_error messages i = Some msg ->
        nth_error (history chat) i = Some (prior msg)) /\
     sendMessage_context chat params
     = (map prior messages ++ [turn "user"%string newMessage])%list).
Proof.
  intros Hfail Hretry Hlen Hcall run turn prior.
  assert (Hrun : run
                 = (Fulfilled (text response),
                    after_request
                      (ChatSendMessage (apiKey page1) (chat_session messages)
                         {| send_message := newMessage |}) r page1,
                    (retry_trace errors 0 1000 ++ [Invoke])%list)).
  { subst run. unfold sendChatMessageGemini, withExponentialBackoff.
    apply (run_then_fulfilled _ 3 1000 page page1 _ errors _ Hfail Hretry);
      [| exact (within_default_attempts errors Hlen)].
    unfold sendChatMessage_attempt. cbv zeta. rewrite Hcall. reflexivity. }
  rewrite Hrun. unfold outcome. cbn [fst].
  split; [reflexivity|].
  split; [intros reply ->; reflexivity|].
  split; [intros ->; reflexivity|].
  exists (chat_session messages), {| send_message := newMessage |}.
  unfold final_state. cbn [fst snd after_request sent].
  assert (Hhistory : history (chat_session messages) = map prior messages).
  { unfold chat_session. cbn [history]. apply map_ext. intros msg.
    destruct msg as [[|] words]; reflexivity. }
  split; [reflexivity|]. split; [reflexivity|]. split; [reflexivity|].
  split; [reflexivity|]. split; [exact Hhistory|].
  split; [rewrite Hhistory; apply length_map|].
  split.
  - intros i msg Hmsg. rewrite Hhistory, nth_error_map, Hmsg. reflexivity.
  - unfold sendMessage_context. rewrite Hhistory. reflexivity.
Qed.

End CallFacts.

(** ** The calls on stub services *)

Lemma generate_absent_without_image_data_witness :
  Failing
    (generateImage_attempt (Stub.replying Stub.no_images Stub.text_then_image)
       "a cat" "1:1") Stub.start [] Stub.start /\
  Retriable [] /\
  (List.length (@nil ErrorObject) < 3)%nat /\
  models_generateImages (Stub.replying Stub.no_images Stub.text_then_image)
    (apiKey Stub.start) (imagen_request "a cat" "1:1") (remote Stub.start)
  = (Fulfilled Stub.no_images, 1%nat) /\
  outcome
    (generateImageGemini (Stub.replying Stub.no_images Stub.text_then_image)
       "a cat" "1:1" Stub.start) = Fulfilled None.
Proof.
  assert (H1 : Failing
                 (generateImage_attempt
                    (Stub.replying Stub.no_images Stub.text_then_image)
                    "a cat" "1:1") Stub.start [] Stub.start) by constructor.
  assert (H2 : Retriable []) by constructor.
  assert (H3 : (List.length (@nil ErrorObject) < 3)%nat) by (simpl; lia).
  assert (H4 : models_generateImages
                 (Stub.replying Stub.no_images Stub.text_then_image)
                 (apiKey Stub.start) (imagen_request "a cat" "1:1")
                 (remote Stub.start)
               = (Fulfilled Stub.no_images, 1%nat)) by reflexivity.
  split; [exact H1 | split; [exact H2 | split; [exact H3 | split; [exact H4|]]]].
  apply (generate_absent_without_image_data
           (Stub.replying Stub.no_images Stub.text_then_image)
           "a cat" "1:1" Stub.start Stub.start [] Stub.no_images 1%nat
           H1 H2 H3 H4).
  right. reflexivity.
Defined.


Lemma edit_returns_first_inline_image_witness :
  Failing
    (editImage_attempt (Stub.replying Stub.one_png Stub.text_then_image)
       "add a hat" "iVBORw0KGgo=" (mimeType_or_default None))
    Stub.start [] Stub.start /\
  Retriable [] /\
  (List.length (@nil ErrorObject) < 3)%nat /\
  models_generateContent (Stub.replying Stub.one_png Stub.text_then_image)
    (apiKey Stub.start)
    (edit_request "add a hat" "iVBORw0KGgo=" (mimeType_or_default None))
    (remote Stub.start)
  = (Fulfilled Stub.text_then_image, 1%nat) /\
  outcome
    (editImageGemini (Stub.replying Stub.one_png Stub.text_then_image)
       "add a hat" "iVBORw0KGgo=" None Stub.start)
  = Fulfilled (Some "data:image/png;base64,/9j/4AAQ"%string).
Proof.
  assert (H1 : Failing
                 (editImage_attempt
                    (Stub.replying Stub.one_png Stub.text_then_image)
                    "add a hat" "iVBORw0KGgo=" (mimeType_or_default None))
                 Stub.start [] Stub.start) by constructor.
  assert (H2 : Retriable []) by constructor.
  assert (H3 : (List.length (@nil ErrorObject) < 3)%nat) by (simpl; lia).
  assert (H4 : models_generateContent
                 (Stub.replying Stub.one_png Stub.text_then_image)
                 (apiKey Stub.start)
                 (edit_request "add a hat" "iVBORw0KGgo="
                    (mimeType_or_default None))
                 (remote Stub.start)
               = (Fulfilled Stub.text_then_image, 1%nat)) by reflexivity.
  split; [exact H1 | split; [exact H2 | split; [exact H3 | split; [exact H4|]]]].
  pose proof (edit_returns_first_inline_image
                (Stub.replying Stub.one_png Stub.text_then_image)
                "add a hat" "iVBORw0KGgo=" None Stub.start Stub.start []
                Stub.text_then_image 1%nat H1 H2 H3 H4) as Hedit.
  cbv zeta in Hedit. destruct Hedit as [_ Hfirst].
  destruct (Hfirst _ _ eq_refl) as [_ Hcontent].
  destruct (Hcontent _ eq_refl) as [_ Hparts].
  destruct (Hparts _ eq_refl) as [_ Hscan].
  destruct (Hscan
              [ {| part_text := Some "Here is the edited image."%string;
                   inlineData := None |} ]
              []
              {| part_text := None;
                 inlineData := Some {| mimeType := Some "image/jpeg"%string;
                                       data := Some "/9j/4AAQ"%string |} |}
              (Some "image/jpeg"%string)
              eq_refl ltac:(repeat constructor)) as [Hbytes _].
  exact (Hbytes "/9j/4AAQ"%string eq_refl).
Defined.

Lemma chat_context_and_reply_witness :
  Failing
    (sendChatMessage_attempt (Stub.replying Stub.one_png Stub.text_then_image)
       [ {| role := user; message_text := "hi" |};
         {| role := model; message_text := "hello" |} ] "how are you?")
    Stub.start [] Stub.start /\
  Retriable [] /\
  (List.length (@nil ErrorObject) < 3)%nat /\
  chats_sendMessage (Stub.replying Stub.one_png Stub.text_then_image)
    (apiKey Stub.start)
    (chat_session [ {| role := user; message_text := "hi" |};
                    {| role := model; message_text := "hello" |} ])
    {| send_message := "how are you?" |} (remote Stub.start)
  = (Fulfilled Stub.text_then_image, 1%nat) /\
  outcome
    (sendChatMessageGemini (Stub.replying Stub.one_png Stub.text_then_image)
       [ {| role := user; message_text := "hi" |};
         {| role := model; message_text := "hello" |} ] "how are you?"
       Stub.start)
  = Fulfilled (Some "Here is the edited image."%string).
Proof.
  assert (H1 : Failing
                 (sendChatMessage_attempt
                    (Stub.replying Stub.one_png Stub.text_then_image)
                    [ {| role := user; message_text := "hi" |};
                      {| role := model; message_text := "hello" |} ]
                    "how are you?") Stub.start [] Stub.start) by constructor.
  assert (H2 : Retriable []) by constructor.
  assert (H3 : (List.length (@nil ErrorObject) < 3)%nat) by (simpl; lia).
  assert (H4 : chats_sendMessage
                 (Stub.replying Stub.one_png Stub.text_then_image)
                 (apiKey Stub.start)
                 (chat_session [ {| role := user; message_text := "hi" |};
                                 {| role := model; message_text := "hello" |} ])
                 {| send_message := "how are you?" |} (remote Stub.start)
               = (Fulfilled Stub.text_then_image, 1%nat)) by reflexivity.
  split; [exact H1 | split; [exact H2 | split; [exact H3 | split; [exact H4|]]]].
  exact (proj1 (chat_context_and_reply
                  (Stub.replying Stub.one_png Stub.text_then_image)
                  [ {| role := user; message_text := "hi" |};
                    {| role := model; message_text := "hello" |} ]
                  "how are you?" Stub.start Stub.start []
                  Stub.text_then_image 1%nat H1 H2 H3 H4)).
Defined.

(** ** Runs on the stubs *)

Example includes_entity_not_found :
  JS.includes "404 NOT_FOUND: Requested entity was not found. (models/x)"
    entity_not_found = true.
Proof. reflexivity. Qed.

Example forbidden_is_retriable :
  isRetriableError
    {| name := "ApiError"; status := Some 403; message := None |} = true.
Proof. reflexivity. Qed.

Example server_error_is_fatal :
  isRetriableError
    {| name := "ApiError"; status := Some 500;
       message := Some "Internal error."%string |} = false.
Proof. reflexivity. Qed.

Example default_policy_run :
  withExponentialBackoff (Stub.failing Stub.quota) None None 0%nat
  = (Rejected (Rethrown Stub.quota), 3%nat,
     [ Invoke; Warn 1 1000 Stub.quota; Timeout 1000;
       Invoke; Warn 2 2000 Stub.quota; Timeout 2000;
       Invoke ]).
Proof. vm_compute. reflexivity. Qed.

Example second_attempt_succeeds :
  withExponentialBackoff (Stub.flaky 1) None None 0%nat
  = (Fulfilled "done"%string, 2%nat,
     [ Invoke; Warn 1 1000 Stub.quota; Timeout 1000; Invoke ]).
Proof. vm_compute. reflexivity. Qed.

Example generate_one_png :
  outcome
    (generateImageGemini (Stub.replying Stub.one_png Stub.text_then_image)
       "a cat" "1:1" Stub.start)
  = Fulfilled (Some "data:image/png;base64,iVBORw0KGgo="%string).
Proof. vm_compute. reflexivity. Qed.

Example generate_request_sent :
  sent
    (final_state
       (generateImageGemini (Stub.replying Stub.one_png Stub.text_then_image)
          "a cat" "1:1" Stub.start))
  = [ GenerateImages "key"
        {| images_model := "imagen-4.0-generate-001";
           images_prompt :=
             "a cat, high quality, professional, highly detailed.";
           images_config := {| numberOfImages := 1;
                               aspectRatio := "1:1";
                               outputMimeType := "image/png" |} |} ].
Proof. vm_compute. reflexivity. Qed.


(** ** Every run of the executor *)

Section EveryRun.

Context {W T : Type}.
Variable fn : W -> Settled ErrorObject T * W.
Variable attempts : number.

(** Induction over the iterations of the loop: the four ways an
    iteration can go. *)
Lemma loop_ind
    (P : Z -> number -> W -> Settled Raised T * W * list Event -> Prop) :
  (forall i delay w,
     attempts <= inject_Z i ->
     P i delay w (Rejected (NewError max_retry_message), w, [])) ->
  (forall i delay w w1 v,
     inject_Z i < attempts ->
     fn w = (Fulfilled v, w1) ->
     P i delay w (Fulfilled v, w1, [Invoke])) ->
  (forall i delay w w1 error,
     inject_Z i < attempts ->
     fn w = (Rejected error, w1) ->
     inject_Z i == attempts - 1 \/ isRetriableError error = false ->
     P i delay w (Rejected (Rethrown error), w1, [Invoke])) ->
  (forall i delay w w1 error r w2 evs,
     inject_Z i < attempts ->
     ~ inject_Z i == attempts - 1 ->
     fn w = (Rejected error, w1) ->
     isRetriableError error = true ->
     loop fn attempts (i + 1) (delay * 2) w1 = (r, w2, evs) ->
     P (i + 1)%Z (delay * 2) w1 (r, w2, evs) ->
     P i delay w
       (r, w2, Invoke :: Warn (i + 1) delay error :: Timeout delay :: evs)) ->
  forall i delay w, P i delay w (loop fn attempts i delay w).
Proof.
  intros Hexit Hok Hthrow Hretry i delay w.
  remember (Z.to_nat (Qceiling attempts - i)) as k eqn:Hk.
  assert (Hle : (Z.to_nat (Qceiling attempts - i) <= k)%nat) by lia.
  clear Hk. revert i delay w Hle.
  induction k as [|k IH]; intros i delay w Hle; rewrite loop_eq.
  - assert (Hge : attempts <= inject_Z i).
    { eapply Qle_trans; [apply Qle_ceiling|]. rewrite <- Zle_Qle. lia. }
    rewrite (proj2 (lt_false _ _) Hge). apply Hexit. exact Hge.
  - destruct (JS.lt (inject_Z i) attempts) eqn:Hlt.
    2:{ apply Hexit. apply lt_false. exact Hlt. }
    apply lt_true in Hlt.
    destruct (fn w) as [[v | error] w1] eqn:Hfn; [apply Hok; assumption|].
    destruct (JS.strict_eq (inject_Z i) (attempts - 1)) eqn:Hlast.
    { apply Hthrow; [assumption | assumption |].
      left. apply strict_eq_true. exact Hlast. }
    destruct (isRetriableError error) eqn:Hclass; cbn [negb orb].
    2:{ apply Hthrow; [assumption | assumption | right; exact Hclass]. }
    assert (Hnext : (Z.to_nat (Qceiling attempts - (i + 1)) <= k)%nat).
    { assert (Hc : inject_Z i < inject_Z (Qceiling attempts))
        by (eapply Qlt_le_trans; [exact Hlt | apply Qle_ceiling]).
      rewrite <- Zlt_Qlt in Hc. lia. }
    specialize (IH (i + 1)%Z (delay * 2) w1 Hnext).
    destruct (loop fn attempts (i + 1) (delay * 2) w1) as [[r w2] evs] eqn:Hrec.
    apply (Hretry i delay w w1 error r w2 evs); try assumption.
    apply strict_eq_false. exact Hlast.
Qed.

End EveryRun.

Section EveryRunFacts.

Context {W T : Type}.
Variable fn : W -> Settled ErrorObject T * W.
Variable attempts : number.

(** The calls made from counter [i] on never pass the bound. *)
Lemma loop_invocations_bound (i : Z) (delay : number) (w : W) :
  (invocations (snd (loop fn attempts i delay w))
   <= Z.to_nat (Qceiling attempts - i))%nat.
Proof.
  apply (loop_ind fn attempts
           (fun i _ _ res =>
              (invocations (snd res) <= Z.to_nat (Qceiling attempts - i))%nat));
    clear i delay w.
  - intros i delay w _. simpl. lia.
  - intros i delay w w1 v Hlt _. cbn [snd invocations].
    assert (Hc : inject_Z i < inject_Z (Qceiling attempts))
      by (eapply Qlt_le_trans; [exact Hlt | apply Qle_ceiling]).
    rewrite <- Zlt_Qlt in Hc. lia.
  - intros i delay w w1 error Hlt _ _. cbn [snd invocations].
    assert (Hc : inject_Z i < inject_Z (Qceiling attempts))
      by (eapply Qlt_le_trans; [exact Hlt | apply Qle_ceiling]).
    rewrite <- Zlt_Qlt in Hc. lia.
  - intros i delay w w1 error r w2 evs Hlt _ _ _ _ IH.
    cbn [snd invocations] in *.
    assert (Hc : inject_Z i < inject_Z (Qceiling attempts))
      by (eapply Qlt_le_trans; [exact Hlt | apply Qle_ceiling]).
    rewrite <- Zlt_Qlt in Hc. lia.
Qed.

(** How a run from counter [i] went: the errors it retried, then the way
    it ended. *)
Lemma loop_decomposition (i : Z) (delay : number) (w : W) :
  let run := loop fn attempts i delay w in
  exists errors w1,
    Failing fn w errors w1 /\ Retriable errors /\
    ((outcome run = Rejected (NewError max_retry_message) /\
      final_state run = w1 /\
      events run = retry_trace errors i delay /\
      attempts <= inject_Z (i + Z.of_nat (List.length errors)))
     \/
     (inject_Z (i + Z.of_nat (List.length errors)) < attempts /\
      events run = (retry_trace errors i delay ++ [Invoke])%list /\
      ((exists v, fn w1 = (Fulfilled v, final_state run) /\
                  outcome run = Fulfilled v)
       \/
       (exists error, fn w1 = (Rejected error, final_state run) /\
                      outcome run = Rejected (Rethrown error) /\
                      (inject_Z (i + Z.of_nat (List.length errors))
                         == attempts - 1
                       \/ isRetriableError error = false))))).
Proof.
  apply (loop_ind fn attempts
           (fun i delay w run =>
              exists errors w1,
                Failing fn w errors w1 /\ Retriable errors /\
                ((outcome run = Rejected (NewError max_retry_message) /\
                  final_state run = w1 /\
                  events run = retry_trace errors i delay /\
                  attempts <= inject_Z (i + Z.of_nat (List.length errors)))
                 \/
                 (inject_Z (i + Z.of_nat (List.length errors)) < attempts /\
                  events run = (retry_trace errors i delay ++ [Invoke])%list /\
                  ((exists v, fn w1 = (Fulfilled v, final_state run) /\
                              outcome run = Fulfilled v)
                   \/
                   (exists error,
                      fn w1 = (Rejected error, final_state run) /\
                      outcome run = Rejected (Rethrown error) /\
                      (inject_Z (i + Z.of_nat (List.length errors))
                         == attempts - 1
                       \/ isRetriableError error = false)))))));
    clear i delay w.
  - intros i delay w Hge. exists [], w.
    split; [constructor | split; [constructor|]].
    left. cbn [List.length Z.of_nat]. rewrite Z.add_0_r. repeat split.
    exact Hge.
  - intros i delay w w1 v Hlt Hfn. exists [], w.
    split; [constructor | split; [constructor|]].
    right. cbn [List.length Z.of_nat]. rewrite Z.add_0_r.
    split; [exact Hlt | split; [reflexivity|]].
    left. exists v. split; [exact Hfn | reflexivity].
  - intros i delay w w1 error Hlt Hfn Hstop. exists [], w.
    split; [constructor | split; [constructor|]].
    right. cbn [List.length Z.of_nat]. rewrite Z.add_0_r.
    split; [exact Hlt | split; [reflexivity|]].
    right. exists error. split; [exact Hfn | split; [reflexivity | exact Hstop]].
  - intros i delay w w1 error r w2 evs Hlt Hnot Hfn Hclass _
      [errors [w3 [Hfail [Hretry Hend]]]].
    exists (error :: errors), w3.
    split; [econstructor; eassumption|].
    split; [constructor; assumption|].
    cbn [List.length retry_trace]. rewrite Nat2Z.inj_succ.
    replace (i + Z.succ (Z.of_nat (List.length errors)))%Z
      with (i + 1 + Z.of_nat (List.length errors))%Z by lia.
    unfold outcome, final_state, events in *. cbn [fst snd] in *.
    destruct Hend as [[Hout [Hst [Hev Hge]]] | [Hin [Hev Hway]]].
    + left. rewrite Hev. repeat split; assumption.
    + right. rewrite Hev. split; [exact Hin | split; [reflexivity | exact Hway]].
Qed.

(** The waits of a run from delay [delay] double each time, and there
    is one wait fewer than calls unless line 30 ended the run. *)
Lemma loop_delays (i : Z) (delay : number) (w : W) :
  let run := loop fn attempts i delay w in
  delays (events run)
    = map (fun k => backoff k delay)
        (seq 0 (List.length (delays (events run)))) /\
  invocations (events run)
    = (List.length (delays (events run))
       + match outcome run with
         | Rejected (NewError _) => 0
         | _ => 1
         end)%nat.
Proof.
  apply (loop_ind fn attempts
           (fun i delay w run =>
              delays (events run)
                = map (fun k => backoff k delay)
                    (seq 0 (List.length (delays (events run)))) /\
              invocations (events run)
                = (List.length (delays (events run))
                   + match outcome run with
                     | Rejected (NewError _) => 0
                     | _ => 1
                     end)%nat));
    clear i delay w.
  - intros. split; reflexivity.
  - intros. split; reflexivity.
  - intros. split; reflexivity.
  - intros i delay w w1 error r w2 evs _ _ _ _ _ [Hgeo Hcount].
    unfold events, outcome in *. cbn [fst snd] in *.
    cbn [delays invocations List.length seq map backoff]. split.
    + f_equal. rewrite Hgeo at 1. rewrite <- seq_shift, map_map. reflexivity.
    + rewrite Hcount. reflexivity.
Qed.

(** Retriable failures are retried as long as the counter is below the
    bound and is not the bound minus one. *)
Lemma loop_retries_while (w w' : W) (errors : list ErrorObject) :
  Failing fn w errors w' ->
  forall (i : Z) (delay : number),
  Retriable errors ->
  (forall j : Z, (0 <= j < Z.of_nat (List.length errors))%Z ->
     inject_Z (i + j) < attempts /\ ~ inject_Z (i + j) == attempts - 1) ->
  loop fn attempts i delay w =
  let '(r, w2, evs) :=
    loop fn attempts (i + Z.of_nat (List.length errors))
      (backoff (List.length errors) delay) w' in
  (r, w2, (retry_trace errors i delay ++ evs)%list).
Proof.
  induction 1 as [w | w w1 w2 error rest Hfn Hrest IH];
    intros i delay Hall Hroom.
  - cbn [List.length retry_trace backoff Z.of_nat app]. rewrite Z.add_0_r.
    destruct (loop fn attempts i delay w) as [[r w2] evs]. reflexivity.
  - inversion Hall as [|? ? Hretry Hall']; subst.
    cbn [List.length] in Hroom. rewrite Nat2Z.inj_succ in Hroom.
    destruct (Hroom 0%Z ltac:(lia)) as [Hlt Hne]. rewrite Z.add_0_r in Hlt, Hne.
    rewrite loop_eq, (proj2 (lt_true _ _) Hlt), Hfn,
      (proj2 (strict_eq_false _ _) Hne), Hretry.
    cbn [negb orb].
    rewrite (IH (i + 1)%Z (delay * 2) Hall').
    2:{ intros j Hj. replace (i + 1 + j)%Z with (i + (j + 1))%Z by lia.
        apply Hroom. lia. }
    cbn [List.length backoff retry_trace]. rewrite Nat2Z.inj_succ.
    replace (i + Z.succ (Z.of_nat (List.length rest)))%Z
      with (i + 1 + Z.of_nat (List.length rest))%Z by lia.
    destruct (loop fn attempts (i + 1 + Z.of_nat (List.length rest))
                (backoff (List.length rest) (delay * 2)) w2) as [[r w3] evs].
    reflexivity.
Qed.

(** The only error the executor creates is the one of line 30. *)
Lemma loop_new_error_message (i : Z) (delay : number) (w : W) (msg : string) :
  fst (fst (loop fn attempts i delay w)) = Rejected (NewError msg) ->
  msg = max_retry_message.
Proof.
  apply (loop_ind fn attempts
           (fun _ _ _ run =>
              fst (fst run) = Rejected (NewError msg) ->
              msg = max_retry_message));
    clear i delay w; cbn [fst]; try discriminate.
  - intros _ _ _ _ H. now injection H.
  - intros; auto.
Qed.

End EveryRunFacts.

Lemma total_geometric (m : nat) (delay : number) :
  fold_right Qplus 0 (map (fun k => backoff k delay) (seq 0 m))
  == delay * (2 ^ Z.of_nat m - 1).
Proof.
  revert delay. unfold number. induction m as [|m IH]; intros delay.
  - simpl. ring.
  - cbn [seq map fold_right backoff].
    rewrite <- seq_shift, map_map. cbn [backoff].
    rewrite IH, Nat2Z.inj_succ, <- Z.add_1_r.
    rewrite Qpower_plus by discriminate. simpl (2 ^ 1). ring.
Qed.

Lemma retried_errors_retry_trace (errors : list ErrorObject) (i : Z)
    (delay : number) (tail : list Event) :
  retried_errors (retry_trace errors i delay ++ tail)%list
  = (errors ++ retried_errors tail)%list.
Proof.
  revert i delay. induction errors as [|error rest IH]; intros i delay.
  - reflexivity.
  - cbn [retry_trace app retried_errors]. rewrite IH. reflexivity.
Qed.

(** X1. Take an operation whose rejections are error objects, that is
    values whose [status] can be read and whose [message] is a string or
    missing, so that lines 18-20 classify them without throwing, and a
    finite bound.  Every run of the executor is then a series of
    retriable failures, each warned about and waited after, followed by
    one of three endings: the loop ran out (line 30), or a call
    succeeded and its value is returned, or a call failed on the last
    attempt or with an error that is not retriable and that error is
    thrown again.  On these operations the executor returns no value and
    rethrows no error that the operation did not produce in its last
    call, and it retries nothing but retriable errors. *)
Theorem every_run_decomposes (W T : Type)
    (fn : W -> Settled ErrorObject T * W) (attempts delay : number) (w : W) :
  let run := withExponentialBackoff fn (Some attempts) (Some delay) w in
  exists errors w1,
    Failing fn w errors w1 /\ Retriable errors /\
    retried_errors (events run) = errors /\
    ((outcome run = Rejected (NewError max_retry_message) /\
      final_state run = w1 /\
      events run = retry_trace errors 0 delay /\
      attempts <= inject_Z (Z.of_nat (List.length errors)))
     \/
     (inject_Z (Z.of_nat (List.length errors)) < attempts /\
      events run = (retry_trace errors 0 delay ++ [Invoke])%list /\
      ((exists v, fn w1 = (Fulfilled v, final_state run) /\
                  outcome run = Fulfilled v)
       \/
       (exists error, fn w1 = (Rejected error, final_state run) /\
                      outcome run = Rejected (Rethrown error) /\
                      (inject_Z (Z.of_nat (List.length errors))
                         == attempts - 1
                       \/ isRetriableError error = false))))).
Proof.
  intros run. subst run. unfold withExponentialBackoff.
  destruct (loop_decomposition fn attempts 0 delay w)
    as [errors [w1 [Hfail [Hretry Hend]]]].
  cbv zeta in Hend. rewrite Z.add_0_l in Hend.
  exists errors, w1. split; [exact Hfail | split; [exact Hretry|]].
  split; [|exact Hend].
  destruct Hend as [[_ [_ [Hev _]]] | [_ [Hev _]]]; rewrite Hev.
  - rewrite <- (app_nil_r (retry_trace errors 0 delay)).
    rewrite retried_errors_retry_trace. apply app_nil_r.
  - rewrite retried_errors_retry_trace. apply app_nil_r.
Qed.

(** X2. Whatever the operation does, it is called at most the bound
    rounded up times, at most 3 times under the default bound, not at
    all when the bound is zero or negative, and at least once when the
    bound is positive. *)
Theorem calls_never_exceed_bound (W T : Type)
    (fn : W -> Settled ErrorObject T * W) (attempts : number)
    (delay : option number) (w : W) :
  (invocations (events (withExponentialBackoff fn (Some attempts) delay w))
   <= Z.to_nat (Qceiling attempts))%nat /\
  (invocations (events (withExponentialBackoff fn None delay w)) <= 3)%nat /\
  (attempts <= 0 ->
   invocations (events (withExponentialBackoff fn (Some attempts) delay w))
   = 0%nat) /\
  (0 < attempts ->
   (1 <= invocations
           (events (withExponentialBackoff fn (Some attempts) delay w)))%nat).
Proof.
  unfold withExponentialBackoff, events.
  set (d := match delay with Some d => d | None => 1000 end).
  split; [|split; [|split]].
  - pose proof (loop_invocations_bound fn attempts 0 d w) as H.
    rewrite Z.sub_0_r in H. exact H.
  - pose proof (loop_invocations_bound fn 3 0 d w) as H. exact H.
  - intros Hle. rewrite loop_exhausted by exact Hle. reflexivity.
  - intros Hpos. apply loop_invokes. exact Hpos.
Qed.

(** X3. In every run the waits double: the wait number k+1 is the
    initial delay times 2^k, whatever the operation and the bound; and
    the run has one wait fewer than calls, unless it ended at line 30,
    where it has as many. *)
Theorem waits_double_in_every_run (W T : Type)
    (fn : W -> Settled ErrorObject T * W) (attempts delay : number) (w : W) :
  let run := withExponentialBackoff fn (Some attempts) (Some delay) w in
  (forall (k : nat) (q : number),
     nth_error (delays (events run)) k = Some q ->
     q == delay * 2 ^ Z.of_nat k) /\
  invocations (events run)
    = (List.length (delays (events run))
       + match outcome run with
         | Rejected (NewError _) => 0
         | _ => 1
         end)%nat.
Proof.
  intros run. subst run. unfold withExponentialBackoff.
  destruct (loop_delays fn attempts 0 delay w) as [Hgeo Hcount].
  cbv zeta in Hgeo, Hcount.
  set (run := loop fn attempts 0 delay w) in *. split; [|exact Hcount].
  intros k q Hk. rewrite Hgeo in Hk.
  assert (Hlt : (k < List.length (delays (events run)))%nat).
  { assert (Hsome : nth_error
                      (map (fun k => backoff k delay)
                         (seq 0 (List.length (delays (events run))))) k
                    <> None) by (rewrite Hk; discriminate).
    apply nth_error_Some in Hsome.
    rewrite length_map, length_seq in Hsome. exact Hsome. }
  rewrite <- (app_nil_r (map _ _)), (nth_delay _ k delay [] Hlt) in Hk.
  injection Hk as <-. apply backoff_pow.
Qed.

Lemma loop_total_wait {W T : Type} (fn : W -> Settled ErrorObject T * W)
    (n : Z) (delay : number) (w : W) :
  (1 <= n)%Z ->
  0 <= delay ->
  total_wait (snd (loop fn (inject_Z n) 0 delay w))
  <= delay * (2 ^ (n - 1) - 1).
Proof.
  intros Hpos Hdelay.
  destruct (loop_delays fn (inject_Z n) 0 delay w) as [Hgeo Hcount].
  pose proof (loop_invocations_bound fn (inject_Z n) 0 delay w) as Hbound.
  rewrite Qceiling_Z, Z.sub_0_r in Hbound.
  pose proof (loop_new_error fn n (Z.to_nat n) 0 delay w ltac:(lia))
    as Hnever.
  unfold events, outcome in *.
  set (run := loop fn (inject_Z n) 0 delay w) in *.
  assert (Hm : (Z.of_nat (List.length (delays (snd run))) <= n - 1)%Z).
  { destruct (fst (fst run)) as [v | [error | msg]] eqn:Hout; try lia.
    pose proof (loop_new_error_message fn (inject_Z n) 0 delay w msg Hout)
      as ->.
    specialize (Hnever eq_refl). lia. }
  unfold total_wait. rewrite Hgeo, total_geometric.
  set (m := Z.of_nat (List.length (delays (snd run)))) in *.
  pose proof (Qpower_le_compat_l 2 m (n - 1) Hm ltac:(discriminate)) as Hpow.
  apply Qle_minus_iff. unfold number in *.
  setoid_replace
    (delay * (2 ^ (n - 1) - 1) + - (delay * (2 ^ m - 1)))
    with (delay * (2 ^ (n - 1) - 2 ^ m)) by ring.
  apply Qmult_le_0_compat; [exact Hdelay|].
  apply Qle_minus_iff in Hpow. exact Hpow.
Qed.

(** X4. With an integer bound [maxAttempts >= 1] and a delay that is
    not negative, no run waits longer in total than
    [initialDelay * (2^(maxAttempts-1) - 1)], whatever the operation
    does; under the default policy that is 3000 ms. *)
Theorem total_wait_bounded (W T : Type)
    (fn : W -> Settled ErrorObject T * W) (maxAttempts : Z)
    (initialDelay : number) (w : W) :
  (1 <= maxAttempts)%Z ->
  0 <= initialDelay ->
  total_wait
    (events (withExponentialBackoff fn (Some (inject_Z maxAttempts))
               (Some initialDelay) w))
  <= initialDelay * (2 ^ (maxAttempts - 1) - 1) /\
  total_wait (events (withExponentialBackoff fn None None w)) <= 3000.
Proof.
  intros Hpos Hdelay. split.
  - apply loop_total_wait; assumption.
  - exact (loop_total_wait fn 3 1000 w ltac:(lia) ltac:(discriminate)).
Qed.

Lemma total_wait_bounded_witness :
  (1 <= 3)%Z /\ 0 <= 1000 /\
  total_wait
    (events (withExponentialBackoff (Stub.failing Stub.quota)
               (Some (inject_Z 3)) (Some 1000) 0%nat))
  <= 1000 * (2 ^ (3 - 1) - 1).
Proof.
  assert (H1 : (1 <= 3)%Z) by lia.
  assert (H2 : 0 <= 1000) by discriminate.
  split; [exact H1 | split; [exact H2|]].
  exact (proj1 (total_wait_bounded nat string (Stub.failing Stub.quota) 3 1000
                  0%nat H1 H2)).
Defined.



(** X6. With a bound that is not an integer, an operation that keeps
    failing with retriable errors is called the bound rounded up times,
    each call followed by a warning and a wait, the last one included,
    and then the "Maximum retry attempts reached." error of line 30 is
    thrown instead of the operation's error. *)
Theorem fractional_bound_exhausts (W T : Type)
    (fn : W -> Settled ErrorObject T * W) (attempts delay : number)
    (w w' : W) (errors : list ErrorObject) :
  (forall n : Z, ~ attempts == inject_Z n) ->
  Failing fn w errors w' ->
  Retriable errors ->
  Z.of_nat (List.length errors) = Qceiling attempts ->
  let run := withExponentialBackoff fn (Some attempts) (Some delay) w in
  run = (Rejected (NewError max_retry_message), w',
         retry_trace errors 0 delay) /\
  invocations (events run) = List.length errors /\
  List.length (delays (events run)) = List.length errors.
Proof.
  intros Hfrac Hfail Hretry Hlen run.
  assert (Hrun : run = (Rejected (NewError max_retry_message), w',
                        retry_trace errors 0 delay)).
  { subst run. unfold withExponentialBackoff.
    rewrite (loop_retries_while fn attempts w w' errors Hfail 0 delay Hretry).
    - rewrite Z.add_0_l, loop_exhausted, app_nil_r; [reflexivity|].
      rewrite Hlen. apply Qle_ceiling.
    - intros j Hj. rewrite Z.add_0_l.
      assert (Hlt : inject_Z j < attempts).
      { eapply Qle_lt_trans; [|apply Qceiling_lt].
        rewrite <- Zle_Qle. lia. }
      split; [exact Hlt|].
      intros Heq. apply (Hfrac (j + 1)%Z).
      rewrite inject_Z_plus. unfold number in *. rewrite Heq.
      change (inject_Z 1) with 1. ring. }
  rewrite Hrun. split; [reflexivity|]. unfold events. cbn [snd].
  rewrite <- (app_nil_r (retry_trace errors 0 delay)).
  rewrite invocations_retry_trace, delays_retry_trace.
  cbn [invocations delays]. rewrite app_nil_r, length_map, length_seq.
  split; [lia | reflexivity].
Qed.

Lemma fractional_bound_exhausts_witness :
  (forall n : Z, ~ (5 # 2) == inject_Z n) /\
  Failing (Stub.failing Stub.quota) 0%nat
    [Stub.quota; Stub.quota; Stub.quota] 3%nat /\
  Retriable [Stub.quota; Stub.quota; Stub.quota] /\
  Z.of_nat (List.length [Stub.quota; Stub.quota; Stub.quota])
    = Qceiling (5 # 2) /\
  withExponentialBackoff (Stub.failing Stub.quota) (Some (5 # 2))
    (Some 1000) 0%nat
  = (Rejected (NewError max_retry_message), 3%nat,
     retry_trace [Stub.quota; Stub.quota; Stub.quota] 0 1000).
Proof.
  assert (H1 : forall n : Z, ~ (5 # 2) == inject_Z n).
  { intros n H. unfold Qeq in H. simpl in H. lia. }
  assert (H2 : Failing (Stub.failing Stub.quota) 0%nat
                 [Stub.quota; Stub.quota; Stub.quota] 3%nat)
    by (repeat (econstructor; [reflexivity|]); constructor).
  assert (H3 : Retriable [Stub.quota; Stub.quota; Stub.quota])
    by (repeat constructor).
  assert (H4 : Z.of_nat (List.length [Stub.quota; Stub.quota; Stub.quota])
               = Qceiling (5 # 2)) by reflexivity.
  split; [exact H1 | split; [exact H2 | split; [exact H3 | split; [exact H4|]]]].
  exact (proj1 (fractional_bound_exhausts nat string (Stub.failing Stub.quota)
                  (5 # 2) 1000 0%nat 3%nat _ H1 H2 H3 H4)).
Defined.


(** ** Every run of the three calls *)

Section Attempts.

Context {R T : Type}.
Variable fn : Page R -> Settled ErrorObject T * Page R.
Variable request : string -> Request.
Variable label : string.

(** What an attempt of each of the three calls does to the page: it
    sends one request with the credential read from the page, logs the
    failure if there is one, and leaves the credential alone. *)
Hypothesis attempt_effect : forall page : Page R,
  API_KEY (snd (fn page)) = API_KEY page /\
  sent (snd (fn page)) = (sent page ++ [request (apiKey page)])%list /\
  console_error (snd (fn page))
  = (console_error page
     ++ match fst (fn page) with
        | Rejected error => [(label, error)]
        | Fulfilled _ => []
        end)%list.

Lemma run_effect (attempts : number) (i : Z) (delay : number) (page : Page R) :
  let run := loop fn attempts i delay page in
  API_KEY (final_state run) = API_KEY page /\
  sent (final_state run)
  = (sent page
     ++ repeat (request (apiKey page)) (invocations (events run)))%list /\
  console_error (final_state run)
  = (console_error page ++ map (pair label) (caught_errors run))%list.
Proof.
  apply (loop_ind fn attempts
           (fun _ _ page run =>
              API_KEY (final_state run) = API_KEY page /\
              sent (final_state run)
              = (sent page
                 ++ repeat (request (apiKey page))
                      (invocations (events run)))%list /\
              console_error (final_state run)
              = (console_error page
                 ++ map (pair label) (caught_errors run))%list));
    clear i delay page;
    unfold caught_errors, final_state, events, outcome; cbn [fst snd].
  - intros _ _ page _. cbn. rewrite !app_nil_r. repeat split.
  - intros _ _ page page1 v _ Hfn.
    destruct (attempt_effect page) as [Hkey [Hsent Hlog]].
    rewrite Hfn in Hkey, Hsent, Hlog. cbn [fst snd] in *.
    cbn. repeat split; assumption.
  - intros _ _ page page1 error _ Hfn _.
    destruct (attempt_effect page) as [Hkey [Hsent Hlog]].
    rewrite Hfn in Hkey, Hsent, Hlog. cbn [fst snd] in *.
    cbn. repeat split; assumption.
  - intros i delay page page1 error r page2 evs _ _ Hfn _ _ [Hkey2 [Hsent2 Hlog2]].
    destruct (attempt_effect page) as [Hkey [Hsent Hlog]].
    rewrite Hfn in Hkey, Hsent, Hlog. cbn [fst snd] in *.
    assert (Hsame : apiKey page1 = apiKey page)
      by (unfold apiKey; rewrite Hkey; reflexivity).
    cbn [invocations retried_errors repeat map app].
    rewrite Hkey2, Hsent2, Hlog2, Hsent, Hlog, Hsame, <- !app_assoc.
    repeat split. exact Hkey.
Qed.

End Attempts.

Section CallRuns.

Context {R : Type}.
Variable ai : GoogleGenAI R.

Lemma generateImage_attempt_effect (prompt ratio : string) (page : Page R) :
  let fn := generateImage_attempt ai prompt ratio in
  API_KEY (snd (fn page)) = API_KEY page /\
  sent (snd (fn page))
  = (sent page
     ++ [GenerateImages (apiKey page) (imagen_request prompt ratio)])%list /\
  console_error (snd (fn page))
  = (console_error page
     ++ match fst (fn page) with
        | Rejected error => [("Imagen image generation error:"%string, error)]
        | Fulfilled _ => []
        end)%list.
Proof.
  unfold generateImage_attempt. cbv zeta.
  destruct (models_generateImages ai (apiKey page)
              (imagen_request prompt ratio) (remote page))
    as [[response | error] r].
  - destruct (generated_image response) as [url | error]; cbn;
      rewrite ?app_nil_r; repeat split.
  - cbn. repeat split.
Qed.

Lemma editImage_attempt_effect (prompt base64ImageData mime : string)
    (page : Page R) :
  let fn := editImage_attempt ai prompt base64ImageData mime in
  API_KEY (snd (fn page)) = API_KEY page /\
  sent (snd (fn page))
  = (sent page
     ++ [GenerateContent (apiKey page)
           (edit_request prompt base64ImageData mime)])%list /\
  console_error (snd (fn page))
  = (console_error page
     ++ match fst (fn page) with
        | Rejected error => [("Gemini image editing error:"%string, error)]
        | Fulfilled _ => []
        end)%list.
Proof.
  unfold editImage_attempt. cbv zeta.
  destruct (models_generateContent ai (apiKey page)
              (edit_request prompt base64ImageData mime) (remote page))
    as [[response | error] r]; cbn; rewrite ?app_nil_r; repeat split.
Qed.

Lemma sendChatMessage_attempt_effect (messages : list ChatMessage)
    (newMessage : string) (page : Page R) :
  let fn := sendChatMessage_attempt ai messages newMessage in
  API_KEY (snd (fn page)) = API_KEY page /\
  sent (snd (fn page))
  = (sent page
     ++ [ChatSendMessage (apiKey page) (chat_session messages)
           {| send_message := newMessage |}])%list /\
  console_error (snd (fn page))
  = (console_error page
     ++ match fst (fn page) with
        | Rejected error => [("Gemini chat error:"%string, error)]
        | Fulfilled _ => []
        end)%list.
Proof.
  unfold sendChatMessage_attempt. cbv zeta.
  destruct (chats_sendMessage ai (apiKey page) (chat_session messages)
              {| send_message := newMessage |} (remote page))
    as [[response | error] r]; cbn; rewrite ?app_nil_r; repeat split.
Qed.

End CallRuns.

Lemma default_run_calls {W T : Type} (fn : W -> Settled ErrorObject T * W)
    (w : W) :
  (1 <= invocations (events (withExponentialBackoff fn None None w)) <= 3)%nat.
Proof.
  unfold withExponentialBackoff, events. split.
  - apply loop_invokes. reflexivity.
  - exact (loop_invocations_bound fn 3 0 1000 w).
Qed.

(** A fulfilled run returns what the last call of the operation
    returned. *)
Lemma fulfilled_by_last_call {W T : Type} (fn : W -> Settled ErrorObject T * W)
    (attempts delay : option number) (w : W) (v : T) :
  outcome (withExponentialBackoff fn attempts delay w) = Fulfilled v ->
  exists w1, fn w1 = (Fulfilled v, final_state
                                     (withExponentialBackoff fn attempts delay w)).
Proof.
  unfold withExponentialBackoff. cbv zeta.
  set (a := match attempts with Some a => a | None => 3 end).
  set (d := match delay with Some d => d | None => 1000 end).
  intros Hout.
  destruct (loop_decomposition fn a 0 d w) as [errors [w1 [_ [_ Hend]]]].
  cbv zeta in Hend.
  destruct Hend as [[Hnew _] | [_ [_ [[v' [Hfn Hv]] | [error [_ [Herr _]]]]]]].
  - rewrite Hnew in Hout. discriminate.
  - rewrite Hv in Hout. injection Hout as ->. exists w1. exact Hfn.
  - rewrite Herr in Hout. discriminate.
Qed.

Section CallRunFacts.

Context {R : Type}.
Variable ai : GoogleGenAI R.

(** The requests each call sends in a run. *)
Lemma call_requests (page : Page R) :
  (forall prompt ratio,
     let run := generateImageGemini ai prompt ratio page in
     (1 <= invocations (events run) <= 3)%nat /\
     sent (final_state run)
     = (sent page
        ++ repeat (GenerateImages (apiKey page) (imagen_request prompt ratio))
             (invocations (events run)))%list) /\
  (forall prompt base64ImageData mime,
     let run := editImageGemini ai prompt base64ImageData mime page in
     (1 <= invocations (events run) <= 3)%nat /\
     sent (final_state run)
     = (sent page
        ++ repeat
             (GenerateContent (apiKey page)
                (edit_request prompt base64ImageData
                   (mimeType_or_default mime)))
             (invocations (events run)))%list) /\
  (forall messages newMessage,
     let run := sendChatMessageGemini ai messages newMessage page in
     (1 <= invocations (events run) <= 3)%nat /\
     sent (final_state run)
     = (sent page
        ++ repeat
             (ChatSendMessage (apiKey page) (chat_session messages)
                {| send_message := newMessage |})
             (invocations (events run)))%list).
Proof.
  split; [|split].
  - intros prompt ratio run. split; [apply default_run_calls|].
    exact (proj1 (proj2
             (run_effect (generateImage_attempt ai prompt ratio)
                (fun key => GenerateImages key (imagen_request prompt ratio))
                "Imagen image generation error:"
                (generateImage_attempt_effect ai prompt ratio)
                3 0 1000 page))).
  - intros prompt base64ImageData mime run. split; [apply default_run_calls|].
    exact (proj1 (proj2
             (run_effect
                (editImage_attempt ai prompt base64ImageData
                   (mimeType_or_default mime))
                (fun key =>
                   GenerateContent key
                     (edit_request prompt base64ImageData
                        (mimeType_or_default mime)))
                "Gemini image editing error:"
                (editImage_attempt_effect ai prompt base64ImageData
                   (mimeType_or_default mime))
                3 0 1000 page))).
  - intros messages newMessage run. split; [apply default_run_calls|].
    exact (proj1 (proj2
             (run_effect (sendChatMessage_attempt ai messages newMessage)
                (fun key =>
                   ChatSendMessage key (chat_session messages)
                     {| send_message := newMessage |})
                "Gemini chat error:"
                (sendChatMessage_attempt_effect ai messages newMessage)
                3 0 1000 page))).
Qed.

(** X7. Each of the three calls sends exactly one request per attempt:
    between one and three requests in all, every one the same request
    with the credential read from the page, appended to what was sent
    before. *)
Theorem one_request_per_attempt (page : Page R) :
  (forall prompt ratio,
     let run := generateImageGemini ai prompt ratio page in
     (1 <= invocations (events run) <= 3)%nat /\
     sent (final_state run)
     = (sent page
        ++ repeat (GenerateImages (apiKey page) (imagen_request prompt ratio))
             (invocations (events run)))%list) /\
  (forall prompt base64ImageData mime,
     let run := editImageGemini ai prompt base64ImageData mime page in
     (1 <= invocations (events run) <= 3)%nat /\
     sent (final_state run)
     = (sent page
        ++ repeat
             (GenerateContent (apiKey page)
                (edit_request prompt base64ImageData
                   (mimeType_or_default mime)))
             (invocations (events run)))%list) /\
  (forall messages newMessage,
     let run := sendChatMessageGemini ai messages newMessage page in
     (1 <= invocations (events run) <= 3)%nat /\
     sent (final_state run)
     = (sent page
        ++ repeat
             (ChatSendMessage (apiKey page) (chat_session messages)
                {| send_message := newMessage |})
             (invocations (events run)))%list).
Proof. exact (call_requests page). Qed.

(** X8. Each of the three calls logs every failure of an attempt once,
    with [console.error] and the call's own label, in the order the
    failures happened: the retried errors and then the error the call
    ends with, whether the remote service or the extraction threw it.
    A run that ends in success logs the retried errors only.  No call
    changes the credential of the page. *)
Theorem every_failure_logged (page : Page R) :
  (forall prompt ratio,
     let run := generateImageGemini ai prompt ratio page in
     console_error (final_state run)
     = (console_error page
        ++ map (pair "Imagen image generation error:"%string)
             (caught_errors run))%list /\
     API_KEY (final_state run) = API_KEY page) /\
  (forall prompt base64ImageData mime,
     let run := editImageGemini ai prompt base64ImageData mime page in
     console_error (final_state run)
     = (console_error page
        ++ map (pair "Gemini image editing error:"%string)
             (caught_errors run))%list /\
     API_KEY (final_state run) = API_KEY page) /\
  (forall messages newMessage,
     let run := sendChatMessageGemini ai messages newMessage page in
     console_error (final_state run)
     = (console_error page
        ++ map (pair "Gemini chat error:"%string) (caught_errors run))%list /\
     API_KEY (final_state run) = API_KEY page).
Proof.
  split; [|split].
  - intros prompt ratio run.
    destruct (run_effect (generateImage_attempt ai prompt ratio)
                (fun key => GenerateImages key (imagen_request prompt ratio))
                "Imagen image generation error:"
                (generateImage_attempt_effect ai prompt ratio)
                3 0 1000 page) as [Hkey [_ Hlog]].
    split; [exact Hlog | exact Hkey].
  - intros prompt base64ImageData mime run.
    destruct (run_effect
                (editImage_attempt ai prompt base64ImageData
                   (mimeType_or_default mime))
                (fun key =>
                   GenerateContent key
                     (edit_request prompt base64ImageData
                        (mimeType_or_default mime)))
                "Gemini image editing error:"
                (editImage_attempt_effect ai prompt base64ImageData
                   (mimeType_or_default mime))
                3 0 1000 page) as [Hkey [_ Hlog]].
    split; [exact Hlog | exact Hkey].
  - intros messages newMessage run.
    destruct (run_effect (sendChatMessage_attempt ai messages newMessage)
                (fun key =>
                   ChatSendMessage key (chat_session messages)
                     {| send_message := newMessage |})
                "Gemini chat error:"
                (sendChatMessage_attempt_effect ai messages newMessage)
                3 0 1000 page) as [Hkey [_ Hlog]].
    split; [exact Hlog | exact Hkey].
Qed.

(** X9. A missing or empty [API_KEY] stops no call: the request is sent
    all the same, at least once, and each time with the empty string as
    credential. *)
Theorem missing_key_sends_empty_credential (page : Page R) :
  API_KEY page = None \/ API_KEY page = Some ""%string ->
  (forall prompt ratio,
     exists added,
       sent (final_state (generateImageGemini ai prompt ratio page))
       = (sent page ++ added)%list /\
       added <> [] /\
       Forall (fun request => request_key request = ""%string) added) /\
  (forall prompt base64ImageData mime,
     exists added,
       sent (final_state (editImageGemini ai prompt base64ImageData mime page))
       = (sent page ++ added)%list /\
       added <> [] /\
       Forall (fun request => request_key request = ""%string) added) /\
  (forall messages newMessage,
     exists added,
       sent (final_state (sendChatMessageGemini ai messages newMessage page))
       = (sent page ++ added)%list /\
       added <> [] /\
       Forall (fun request => request_key request = ""%string) added).
Proof.
  intros Hkey.
  assert (Hempty : apiKey page = ""%string)
    by (unfold apiKey; destruct Hkey as [-> | ->]; reflexivity).
  destruct (call_requests page) as [Hgen [Hedit Hchat]].
  split; [|split].
  - intros prompt ratio. destruct (Hgen prompt ratio) as [[Hone _] Hsent].
    eexists. split; [exact Hsent|]. rewrite Hempty. split.
    + destruct (invocations _); [lia | discriminate].
    + apply Forall_forall. intros request Hin.
      apply repeat_spec in Hin. subst request. reflexivity.
  - intros prompt base64ImageData mime.
    destruct (Hedit prompt base64ImageData mime) as [[Hone _] Hsent].
    eexists. split; [exact Hsent|]. rewrite Hempty. split.
    + destruct (invocations _); [lia | discriminate].
    + apply Forall_forall. intros request Hin.
      apply repeat_spec in Hin. subst request. reflexivity.
  - intros messages newMessage.
    destruct (Hchat messages newMessage) as [[Hone _] Hsent].
    eexists. split; [exact Hsent|]. rewrite Hempty. split.
    + destruct (invocations _); [lia | discriminate].
    + apply Forall_forall. intros request Hin.
      apply repeat_spec in Hin. subst request. reflexivity.
Qed.

Lemma generateImage_attempt_url (prompt ratio : string) (page page' : Page R)
    (url : string) :
  generateImage_attempt ai prompt ratio page = (Fulfilled (Some url), page') ->
  exists bytes, url = ("data:image/png;base64," ++ bytes)%string.
Proof.
  unfold generateImage_attempt, generated_image. cbv zeta.
  destruct (models_generateImages ai (apiKey page)
              (imagen_request prompt ratio) (remote page))
    as [[response | error] r]; [|discriminate].
  destruct (generatedImages response) as [[|first rest]|]; try discriminate.
  destruct (image first) as [img|]; [|discriminate].
  destruct (JS.truthy_string (imageBytes img)); [|discriminate].
  intros H. injection H as <- _. eexists. reflexivity.
Qed.

Lemma edited_image_url (ps : list Part) (url : string) :
  edited_image ps = Some url ->
  exists bytes, url = ("data:image/png;base64," ++ bytes)%string.
Proof.
  induction ps as [|part rest IH]; cbn [edited_image]; [discriminate|].
  destruct (inlineData part) as [blob|]; [|exact IH].
  intros H. injection H as <-. eexists. reflexivity.
Qed.

Lemma editImage_attempt_url (prompt base64ImageData mime : string)
    (page page' : Page R) (url : string) :
  editImage_attempt ai prompt base64ImageData mime page
  = (Fulfilled (Some url), page') ->
  exists bytes, url = ("data:image/png;base64," ++ bytes)%string.
Proof.
  unfold editImage_attempt. cbv zeta.
  destruct (models_generateContent ai (apiKey page)
              (edit_request prompt base64ImageData mime) (remote page))
    as [[response | error] r]; [|discriminate].
  intros H. injection H as H _. apply (edited_image_url _ _ H).
Qed.

(** X10. Whatever the remote service answers, an image that
    [generateImageGemini] or [editImageGemini] returns is a string that
    starts with ["data:image/png;base64,"]; in particular it is never
    the empty string. *)
Theorem image_result_is_png_data_url (page : Page R) (url : string) :
  (forall prompt ratio,
     outcome (generateImageGemini ai prompt ratio page) = Fulfilled (Some url) ->
     exists bytes, url = ("data:image/png;base64," ++ bytes)%string) /\
  (forall prompt base64ImageData mime,
     outcome (editImageGemini ai prompt base64ImageData mime page)
     = Fulfilled (Some url) ->
     exists bytes, url = ("data:image/png;base64," ++ bytes)%string).
Proof.
  split.
  - intros prompt ratio Hout.
    destruct (fulfilled_by_last_call _ None None page (Some url) Hout)
      as [page1 Hfn].
    exact (generateImage_attempt_url _ _ _ _ _ Hfn).
  - intros prompt base64ImageData mime Hout.
    destruct (fulfilled_by_last_call _ None None page (Some url) Hout)
      as [page1 Hfn].
    exact (editImage_attempt_url _ _ _ _ _ _ Hfn).
Qed.

End CallRunFacts.

Lemma missing_key_sends_empty_credential_witness :
  (API_KEY {| remote := 0%nat; API_KEY := None; sent := [];
              console_error := [] |} = None \/
   API_KEY {| remote := 0%nat; API_KEY := None; sent := [];
              console_error := [] |} = Some ""%string) /\
  exists added,
    sent (final_state
            (generateImageGemini
               (Stub.replying Stub.one_png Stub.text_then_image)
               "a cat" "1:1"
               {| remote := 0%nat; API_KEY := None; sent := [];
                  console_error := [] |}))
    = ([] ++ added)%list /\
    added <> [] /\
    Forall (fun request => request_key request = ""%string) added.
Proof.
  assert (H1 : API_KEY {| remote := 0%nat; API_KEY := None; sent := [];
                          console_error := [] |} = None \/
               API_KEY {| remote := 0%nat; API_KEY := None; sent := [];
                          console_error := [] |} = Some ""%string)
    by (left; reflexivity).
  split; [exact H1|].
  exact (proj1 (missing_key_sends_empty_credential
                  (Stub.replying Stub.one_png Stub.text_then_image)
                  {| remote := 0%nat; API_KEY := None; sent := [];
                     console_error := [] |} H1) "a cat"%string "1:1"%string).
Defined.

(** ** Data URLs *)

Lemma includes_char_cons (a c : ascii) (s : string) :
  JS.includes (String a s) (String c EmptyString)
  = Ascii.eqb a c || JS.includes s (String c EmptyString).
Proof.
  cbn [JS.includes String.prefix]. f_equal.
  destruct (ascii_dec c a) as [->|Hne].
  - rewrite Ascii.eqb_refl. destruct s; reflexivity.
  - symmetry. apply Ascii.eqb_neq. congruence.
Qed.

Lemma includes_char_empty (c : ascii) :
  JS.includes EmptyString (String c EmptyString) = false.
Proof. reflexivity. Qed.

Lemma includes_char_app (a b : string) (c : ascii) :
  JS.includes (a ++ b) (String c EmptyString)
  = JS.includes a (String c EmptyString) || JS.includes b (String c EmptyString).
Proof.
  induction a as [|x a IH].
  - rewrite includes_char_empty. reflexivity.
  - cbn [String.append]. rewrite !includes_char_cons, IH.
    apply orb_assoc.
Qed.

Lemma split_without_separator (sep : ascii) (s : string) :
  JS.includes s (String sep EmptyString) = false ->
  JS.split sep s = [s].
Proof.
  induction s as [|c s IH]; [reflexivity|].
  rewrite includes_char_cons. intros H.
  apply orb_false_iff in H. destruct H as [Hc Hs].
  cbn [JS.split]. rewrite Hc, (IH Hs). reflexivity.
Qed.

Lemma split_at_separator (sep : ascii) (a b : string) :
  JS.includes a (String sep EmptyString) = false ->
  JS.split sep (a ++ String sep b) = a :: JS.split sep b.
Proof.
  induction a as [|c a IH]; intros H.
  - cbn [String.append JS.split]. rewrite Ascii.eqb_refl. reflexivity.
  - rewrite includes_char_cons in H.
    apply orb_false_iff in H. destruct H as [Hc Ha].
    cbn [String.append JS.split]. rewrite Hc, (IH Ha). reflexivity.
Qed.

Lemma append_assoc (a b c : string) : ((a ++ b) ++ c = a ++ (b ++ c))%string.
Proof.
  induction a as [|x a IH]; [reflexivity|].
  cbn [String.append]. rewrite IH. reflexivity.
Qed.

Lemma data_url_parts (mime data : string) :
  JS.includes mime "," = false ->
  JS.includes mime ";" = false ->
  JS.includes mime ":" = false ->
  JS.includes data "," = false ->
  let dataUrl := ("data:" ++ mime ++ ";base64," ++ data)%string in
  App.base64_of dataUrl = Some data /\
  App.mimeType_of dataUrl = Some mime.
Proof.
  intros Hcomma Hsemi Hcolon Hdata dataUrl. subst dataUrl. split.
  - unfold App.base64_of.
    change ("data:" ++ mime ++ ";base64," ++ data)%string
      with ("data:" ++ (mime ++ ";base64" ++ String "," data))%string.
    rewrite <- append_assoc, <- append_assoc.
    rewrite split_at_separator.
    + rewrite (split_without_separator _ _ Hdata). reflexivity.
    + rewrite !includes_char_app, Hcomma. reflexivity.
  - unfold App.mimeType_of.
    change ("data:" ++ mime ++ ";base64," ++ data)%string
      with ("data:" ++ (mime ++ String ";" ("base64," ++ data)))%string.
    rewrite <- append_assoc.
    rewrite split_at_separator
      by (rewrite includes_char_app, Hsemi; reflexivity).
    change ("data:" ++ mime)%string with ("data" ++ String ":" mime)%string.
    rewrite split_at_separator by reflexivity.
    rewrite (split_without_separator _ _ Hcolon). reflexivity.
Qed.

(** X11. The two [split] expressions that take an uploaded data URL
    apart give back the MIME type and the base64 data it was made of:
    for ["data:" ++ mime ++ ";base64," ++ data] they yield [data] and
    [mime], provided [mime] has no comma, semicolon or colon and [data]
    has no comma. *)
Theorem data_url_round_trip (mime data : string) :
  JS.includes mime "," = false ->
  JS.includes mime ";" = false ->
  JS.includes mime ":" = false ->
  JS.includes data "," = false ->
  let dataUrl := ("data:" ++ mime ++ ";base64," ++ data)%string in
  App.base64_of dataUrl = Some data /\
  App.mimeType_of dataUrl = Some mime.
Proof. exact (data_url_parts mime data). Qed.

Lemma data_url_round_trip_witness :
  JS.includes "image/jpeg" "," = false /\
  JS.includes "image/jpeg" ";" = false /\
  JS.includes "image/jpeg" ":" = false /\
  JS.includes "/9j/4AAQ" "," = false /\
  App.base64_of "data:image/jpeg;base64,/9j/4AAQ" = Some "/9j/4AAQ"%string /\
  App.mimeType_of "data:image/jpeg;base64,/9j/4AAQ" = Some "image/jpeg"%string.
Proof.
  assert (H1 : JS.includes "image/jpeg" "," = false) by reflexivity.
  assert (H2 : JS.includes "image/jpeg" ";" = false) by reflexivity.
  assert (H3 : JS.includes "image/jpeg" ":" = false) by reflexivity.
  assert (H4 : JS.includes "/9j/4AAQ" "," = false) by reflexivity.
  split; [exact H1 | split; [exact H2 | split; [exact H3 | split; [exact H4|]]]].
  exact (data_url_round_trip "image/jpeg" "/9j/4AAQ" H1 H2 H3 H4).
Defined.

(** ** The handlers of the component *)

Lemma or_else_nonempty (x : option string) (fallback : string) :
  fallback <> ""%string -> JS.or_else x fallback <> ""%string.
Proof.
  intros Hfb. destruct x as [[|c rest]|]; cbn; try exact Hfb. discriminate.
Qed.

Lemma truthy_string_some (x : option string) :
  JS.truthy_string x = true -> exists c rest, x = Some (String c rest).
Proof.
  destruct x as [[|c rest]|]; try discriminate. intros _. now exists c, rest.
Qed.

Section HandlerFacts.

Context {R : Type}.
Variable ai : GoogleGenAI R.

Lemma editImage_attempt_untyped_effect (prompt : string)
    (base64ImageData : option string) (mime : string) (page : Page R) :
  let fn := App.editImage_attempt_untyped ai prompt base64ImageData mime in
  API_KEY (snd (fn page)) = API_KEY page /\
  sent (snd (fn page))
  = (sent page
     ++ [GenerateContent (apiKey page)
           (App.edit_request_untyped prompt base64ImageData mime)])%list /\
  console_error (snd (fn page))
  = (console_error page
     ++ match fst (fn page) with
        | Rejected error => [("Gemini image editing error:"%string, error)]
        | Fulfilled _ => []
        end)%list.
Proof.
  unfold App.editImage_attempt_untyped. cbv zeta.
  destruct (models_generateContent ai (apiKey page)
              (App.edit_request_untyped prompt base64ImageData mime)
              (remote page))
    as [[response | error] r]; cbn; rewrite ?app_nil_r; repeat split.
Qed.

Lemma editImage_untyped_requests (prompt : string)
    (base64ImageData mime : option string) (page : Page R) :
  let run := App.editImageGemini_untyped ai prompt base64ImageData mime page in
  (1 <= invocations (events run) <= 3)%nat /\
  sent (final_state run)
  = (sent page
     ++ repeat
          (GenerateContent (apiKey page)
             (App.edit_request_untyped prompt base64ImageData
                (mimeType_or_default mime)))
          (invocations (events run)))%list.
Proof.
  intros run. split; [apply default_run_calls|].
  exact (proj1 (proj2
           (run_effect
              (App.editImage_attempt_untyped ai prompt base64ImageData
                 (mimeType_or_default mime))
              (fun key =>
                 GenerateContent key
                   (App.edit_request_untyped prompt base64ImageData
                      (mimeType_or_default mime)))
              "Gemini image editing error:"
              (editImage_attempt_untyped_effect prompt base64ImageData
                 (mimeType_or_default mime))
              3 0 1000 page))).
Qed.

Lemma editImage_untyped_url (prompt : string)
    (base64ImageData mime : option string) (page : Page R) (url : string) :
  outcome (App.editImageGemini_untyped ai prompt base64ImageData mime page)
  = Fulfilled (Some url) ->
  exists bytes, url = ("data:image/png;base64," ++ bytes)%string.
Proof.
  intros Hout.
  destruct (fulfilled_by_last_call _ None None page (Some url) Hout)
    as [page1 Hfn].
  revert Hfn. unfold App.editImage_attempt_untyped. cbv zeta.
  destruct (models_generateContent ai (apiKey page1)
              (App.edit_request_untyped prompt base64ImageData
                 (mimeType_or_default mime)) (remote page1))
    as [[response | error] r]; [|discriminate].
  intros H. injection H as H _. apply (edited_image_url _ _ H).
Qed.

Lemma generate_url (prompt ratio : string) (page : Page R) (url : string) :
  outcome (generateImageGemini ai prompt ratio page) = Fulfilled (Some url) ->
  exists bytes, url = ("data:image/png;base64," ++ bytes)%string.
Proof.
  intros Hout.
  destruct (fulfilled_by_last_call _ None None page (Some url) Hout)
    as [page1 Hfn].
  exact (generateImage_attempt_url ai _ _ _ _ _ Hfn).
Qed.

(** The world a run of [generateImage] leaves, by the outcome of the
    call. *)
Lemma generateImage_result (w : App.World (R := R)) :
  JS.truthy_string (Some (App.prompt (App.view w))) = true ->
  let call :=
    generateImageGemini ai (App.prompt (App.view w))
      (App.aspectRatio (App.view w)) (App.page w) in
  let s1 :=
    App.setGeneratedImage None
      (App.setError None (App.setIsLoading true (App.view w))) in
  let failed (err : Raised) :=
    App.setIsLoading false
      (App.setError
         (Some (JS.or_else (message_of err)
                  "Failed to generate image. Please try a different prompt or check your API key."))
         s1) in
  App.page (App.generateImage ai w) = final_state call /\
  App.view (App.generateImage ai w)
  = match outcome call with
    | Fulfilled (Some (String c rest)) =>
        App.setIsLoading false
          (App.setGeneratedImage (Some (String c rest)) s1)
    | Fulfilled _ => failed (NewError "No image data received from API.")
    | Rejected err => failed err
    end.
Proof.
  intros Hprompt. cbv zeta. unfold App.generateImage. cbv zeta.
  rewrite Hprompt. cbn [negb].
  destruct (generateImageGemini ai (App.prompt (App.view w))
              (App.aspectRatio (App.view w)) (App.page w))
    as [[[[[|c rest]|] | err] page1] evs]; split; reflexivity.
Qed.

Lemma editImage_result (w : App.World (R := R)) :
  JS.truthy_string (Some (App.prompt (App.view w))) = true ->
  JS.truthy_string (App.uploadedImage (App.view w)) = true ->
  let uploaded := JS.interpolate (App.uploadedImage (App.view w)) in
  let call :=
    App.editImageGemini_untyped ai (App.prompt (App.view w))
      (App.base64_of uploaded) (App.mimeType_of uploaded) (App.page w) in
  let s1 :=
    App.setGeneratedImage None
      (App.setError None (App.setIsLoading true (App.view w))) in
  let failed (err : Raised) :=
    App.setIsLoading false
      (App.setError
         (Some (JS.or_else (message_of err)
                  "Failed to edit image. Ensure the prompt is clear or check your API key."))
         s1) in
  App.page (App.editImage ai w) = final_state call /\
  App.view (App.editImage ai w)
  = match outcome call with
    | Fulfilled (Some (String c rest)) =>
        App.setIsLoading false
          (App.setGeneratedImage (Some (String c rest)) s1)
    | Fulfilled _ =>
        failed
          (NewError
             "The model could not generate a visual edit. Try describing the desired output more clearly.")
    | Rejected err => failed err
    end.
Proof.
  intros Hprompt Hupload. cbv zeta. unfold App.editImage. cbv zeta.
  rewrite Hprompt, Hupload. cbn [negb orb].
  destruct (App.editImageGemini_untyped ai (App.prompt (App.view w))
              (App.base64_of (JS.interpolate (App.uploadedImage (App.view w))))
              (App.mimeType_of (JS.interpolate (App.uploadedImage (App.view w))))
              (App.page w))
    as [[[[[|c rest]|] | err] page1] evs]; split; reflexivity.
Qed.

Lemma handleChatSubmit_result (w : App.World (R := R)) :
  JS.truthy_string (Some (JS.trim (App.chatInput (App.view w)))) = true ->
  App.isChatLoading (App.view w) = false ->
  let asked := App.chatInput (App.view w) in
  let call :=
    sendChatMessageGemini ai (App.chatHistory (App.view w)) asked
      (App.page w) in
  let answer :=
    match outcome call with
    | Fulfilled (Some (String c rest)) => String c rest
    | Fulfilled _ =>
        JS.or_else (message_of (NewError "Sorry, I couldn't generate a response."))
          "I apologize, but I encountered an error while processing your request. Please try again."
    | Rejected err =>
        JS.or_else (message_of err)
          "I apologize, but I encountered an error while processing your request. Please try again."
    end in
  App.page (App.handleChatSubmit ai w) = final_state call /\
  App.view (App.handleChatSubmit ai w)
  = App.setIsChatLoading false
      (App.setChatHistory
         (fun prev =>
            (prev ++ [{| role := model; message_text := answer |}])%list)
         (App.setIsChatLoading true
            (App.setChatHistory
               (fun prev =>
                  (prev ++ [{| role := user; message_text := asked |}])%list)
               (App.setChatInput "" (App.view w))))).
Proof.
  intros Hinput Hidle. cbv zeta. unfold App.handleChatSubmit. cbv zeta.
  rewrite Hinput, Hidle. cbn [negb orb].
  destruct (sendChatMessageGemini ai (App.chatHistory (App.view w))
              (App.chatInput (App.view w)) (App.page w))
    as [[[[[|c rest]|] | err] page1] evs]; split; reflexivity.
Qed.

End HandlerFacts.

Section HandlerProperties.

Context {R : Type}.
Variable ai : GoogleGenAI R.

(** X12. When the uploaded image is ["data:" ++ mime ++ ";base64," ++
    data] (no comma, semicolon or colon in [mime], no comma in [data])
    and the prompt is not empty, [editImage] sends the service, once per
    attempt, the edit request that carries exactly [mime] and [data] as
    inline data together with the prompt. *)
Theorem upload_reaches_service (w : App.World (R := R)) (mime data : string) :
  JS.truthy_string (Some (App.prompt (App.view w))) = true ->
  App.uploadedImage (App.view w)
  = Some ("data:" ++ mime ++ ";base64," ++ data)%string ->
  JS.includes mime "," = false ->
  JS.includes mime ";" = false ->
  JS.includes mime ":" = false ->
  JS.includes data "," = false ->
  exists n,
    (1 <= n <= 3)%nat /\
    sent (App.page (App.editImage ai w))
    = (sent (App.page w)
       ++ repeat
            (GenerateContent (apiKey (App.page w))
               (edit_request (App.prompt (App.view w)) data mime))
            n)%list.
Proof.
  intros Hprompt Hupload Hcomma Hsemi Hcolon Hdata.
  destruct (editImage_result ai w Hprompt) as [Hpage _].
  { rewrite Hupload. reflexivity. }
  rewrite Hpage, Hupload. cbn [JS.interpolate].
  destruct (data_url_parts mime data Hcomma Hsemi Hcolon Hdata) as [-> ->].
  destruct (editImage_untyped_requests ai (App.prompt (App.view w))
              (Some data) (Some mime) (App.page w)) as [Hn Hsent].
  eexists. split; [exact Hn | exact Hsent].
Qed.

Lemma handleAction_empty_prompt (w : App.World (R := R)) :
  App.prompt (App.view w) = ""%string ->
  App.page (App.handleAction ai w) = App.page w /\
  App.console (App.handleAction ai w) = App.console w /\
  App.view (App.handleAction ai w)
  = match App.activeTab (App.view w) with
    | App.edit =>
        if JS.truthy_string (App.uploadedImage (App.view w))
        then App.setError
               (Some "Please provide both an image and a prompt for editing."%string)
               (App.view w)
        else App.view w
    | App.generate => App.view w
    end.
Proof.
  intros Hprompt. unfold App.handleAction, App.editImage, App.generateImage.
  cbv zeta. rewrite Hprompt. cbn [JS.truthy_string negb orb].
  destruct (App.activeTab (App.view w));
    [|destruct (JS.truthy_string (App.uploadedImage (App.view w)))];
    repeat split.
Qed.

(** X13. With an empty prompt [handleAction] sends nothing and logs
    nothing: in the edit tab with an uploaded image it only shows
    "Please provide both an image and a prompt for editing.", and
    otherwise it changes nothing at all. *)
Theorem empty_prompt_sends_nothing (w : App.World (R := R)) :
  App.prompt (App.view w) = ""%string ->
  App.page (App.handleAction ai w) = App.page w /\
  App.console (App.handleAction ai w) = App.console w /\
  App.view (App.handleAction ai w)
  = match App.activeTab (App.view w) with
    | App.edit =>
        if JS.truthy_string (App.uploadedImage (App.view w))
        then App.setError
               (Some "Please provide both an image and a prompt for editing."%string)
               (App.view w)
        else App.view w
    | App.generate => App.view w
    end.
Proof. exact (handleAction_empty_prompt w). Qed.

(** X14. While the button is disabled (a call is loading, or the edit
    tab has no image) and the prompt is not empty, a click does nothing,
    but the Enter key still runs [handleAction] and at least one request
    is sent; in the edit tab without an image, that request is a
    text-to-image generation of the prompt. *)
Theorem enter_bypasses_disabled_button (w : App.World (R := R)) :
  App.action_disabled (App.view w) = true ->
  JS.truthy_string (Some (App.prompt (App.view w))) = true ->
  App.handle ai App.ClickAction w = w /\
  (exists added,
     added <> [] /\
     sent (App.page (App.handle ai App.PressEnter w))
     = (sent (App.page w) ++ added)%list) /\
  (App.activeTab (App.view w) = App.edit ->
   JS.truthy_string (App.uploadedImage (App.view w)) = false ->
   exists n,
     (1 <= n <= 3)%nat /\
     sent (App.page (App.handle ai App.PressEnter w))
     = (sent (App.page w)
        ++ repeat
             (GenerateImages (apiKey (App.page w))
                (imagen_request (App.prompt (App.view w))
                   (App.aspectRatio (App.view w))))
             n)%list).
Proof.
  intros Hdisabled Hprompt.
  destruct (generateImage_result ai w Hprompt) as [Hgen _].
  destruct (call_requests ai (App.page w)) as [Hreq _].
  specialize (Hreq (App.prompt (App.view w)) (App.aspectRatio (App.view w))).
  cbv zeta in Hreq. destruct Hreq as [Hn Hsent].
  split; [|split].
  - cbn [App.handle]. rewrite Hdisabled. reflexivity.
  - cbn [App.handle]. unfold App.handleAction.
    assert (Hnonempty : forall (A : Type) (x : A) n,
              (1 <= n)%nat -> repeat x n <> []).
    { intros A x n Hle. destruct n; [lia | discriminate]. }
    destruct (App.activeTab (App.view w)).
    + eexists. split; [|rewrite Hgen; exact Hsent].
      apply Hnonempty. lia.
    + destruct (JS.truthy_string (App.uploadedImage (App.view w))) eqn:Hup.
      * destruct (editImage_result ai w Hprompt Hup) as [Hedit _].
        destruct (editImage_untyped_requests ai (App.prompt (App.view w))
                    (App.base64_of
                       (JS.interpolate (App.uploadedImage (App.view w))))
                    (App.mimeType_of
                       (JS.interpolate (App.uploadedImage (App.view w))))
                    (App.page w)) as [Hm Hsent'].
        eexists. split; [|rewrite Hedit; exact Hsent'].
        apply Hnonempty. lia.
      * eexists. split; [|rewrite Hgen; exact Hsent].
        apply Hnonempty. lia.
  - intros Htab Hup. cbn [App.handle]. unfold App.handleAction.
    rewrite Htab, Hup, Hgen. eexists. split; [exact Hn | exact Hsent].
Qed.

End HandlerProperties.

Lemma empty_prompt_sends_nothing_witness :
  App.prompt
    (App.view {| App.view := App.initial; App.page := Stub.start;
                 App.console := [] |}) = ""%string /\
  App.page
    (App.handleAction (Stub.replying Stub.one_png Stub.text_then_image)
       {| App.view := App.initial; App.page := Stub.start;
          App.console := [] |})
  = Stub.start.
Proof.
  assert (H1 : App.prompt
                 (App.view {| App.view := App.initial; App.page := Stub.start;
                              App.console := [] |}) = ""%string)
    by reflexivity.
  split; [exact H1|].
  exact (proj1 (empty_prompt_sends_nothing
                  (Stub.replying Stub.one_png Stub.text_then_image)
                  {| App.view := App.initial; App.page := Stub.start;
                     App.console := [] |} H1)).
Defined.

Lemma enter_bypasses_disabled_button_witness :
  App.action_disabled
    (App.setPrompt "a cat" (App.setActiveTab App.edit App.initial)) = true /\
  JS.truthy_string
    (Some (App.prompt
             (App.setPrompt "a cat" (App.setActiveTab App.edit App.initial))))
  = true /\
  App.handle (Stub.replying Stub.one_png Stub.text_then_image) App.ClickAction
    {| App.view :=
         App.setPrompt "a cat" (App.setActiveTab App.edit App.initial);
       App.page := Stub.start; App.console := [] |}
  = {| App.view :=
         App.setPrompt "a cat" (App.setActiveTab App.edit App.initial);
       App.page := Stub.start; App.console := [] |}.
Proof.
  assert (H1 : App.action_disabled
                 (App.setPrompt "a cat"
                    (App.setActiveTab App.edit App.initial)) = true)
    by reflexivity.
  assert (H2 : JS.truthy_string
                 (Some (App.prompt
                          (App.setPrompt "a cat"
                             (App.setActiveTab App.edit App.initial))))
               = true) by reflexivity.
  split; [exact H1 | split; [exact H2|]].
  exact (proj1 (enter_bypasses_disabled_button
                  (Stub.replying Stub.one_png Stub.text_then_image)
                  {| App.view :=
                       App.setPrompt "a cat"
                         (App.setActiveTab App.edit App.initial);
                     App.page := Stub.start; App.console := [] |} H1 H2)).
Defined.


(** ** The component between events *)

Lemma trim_truthy_nonempty (s : string) :
  JS.truthy_string (Some (JS.trim s)) = true -> s <> ""%string.
Proof. intros H ->. discriminate. Qed.

Lemma exchanges_app (messages : list ChatMessage) (asked answered : ChatMessage) :
  App.exchanges messages ->
  role asked = user -> message_text asked <> ""%string ->
  role answered = model -> message_text answered <> ""%string ->
  App.exchanges (messages ++ [asked; answered])%list.
Proof.
  intros H Hu Hut Hm Hmt. revert messages H. fix IH 1.
  intros [|x [|y rest]]; cbn [App.exchanges app].
  - intros _. repeat split; assumption.
  - intros [].
  - intros (H1 & H2 & H3 & H4 & Hrest). repeat split; try assumption.
    apply IH. exact Hrest.
Qed.

Section ComponentProperties.

Context {R : Type}.
Variable ai : GoogleGenAI R.

(** The state [generateImage] and [editImage] leave after a call: the
    image or an error, never both and never neither. *)
Lemma shows_image_or_error (s1 : App.State) (call_outcome : Settled Raised (option string))
    (missing fallback : string) :
  missing <> ""%string -> fallback <> ""%string ->
  (forall url, call_outcome = Fulfilled (Some url) ->
     exists bytes, url = ("data:image/png;base64," ++ bytes)%string) ->
  App.generatedImage s1 = None -> App.error s1 = None ->
  let s' :=
    match call_outcome with
    | Fulfilled (Some (String c rest)) =>
        App.setIsLoading false
          (App.setGeneratedImage (Some (String c rest)) s1)
    | Fulfilled _ =>
        App.setIsLoading false
          (App.setError
             (Some (JS.or_else (message_of (NewError missing)) fallback)) s1)
    | Rejected err =>
        App.setIsLoading false
          (App.setError (Some (JS.or_else (message_of err) fallback)) s1)
    end in
  App.isLoading s' = false /\
  ((exists url bytes,
      App.generatedImage s' = Some url /\
      url = ("data:image/png;base64," ++ bytes)%string /\
      App.error s' = None)
   \/
   (App.generatedImage s' = None /\
    exists msg, App.error s' = Some msg /\ msg <> ""%string)).
Proof.
  intros Hmissing Hfallback Hurl Himg Herr.
  destruct call_outcome as [[[|c rest]|] | err]; cbn; (split; [reflexivity|]).
  - right. split; [exact Himg|]. eexists. split; [reflexivity|].
    destruct missing; [contradiction | discriminate].
  - left. destruct (Hurl _ eq_refl) as [bytes Hbytes].
    exists (String c rest), bytes. repeat split; assumption.
  - right. split; [exact Himg|]. eexists. split; [reflexivity|].
    destruct missing; [contradiction | discriminate].
  - right. split; [exact Himg|]. eexists. split; [reflexivity|].
    apply or_else_nonempty. exact Hfallback.
Qed.

Lemma handleAction_outcome (w : App.World (R := R)) :
  JS.truthy_string (Some (App.prompt (App.view w))) = true ->
  let w' := App.handleAction ai w in
  App.isLoading (App.view w') = false /\
  ((exists url bytes,
      App.generatedImage (App.view w') = Some url /\
      url = ("data:image/png;base64," ++ bytes)%string /\
      App.error (App.view w') = None)
   \/
   (App.generatedImage (App.view w') = None /\
    exists msg, App.error (App.view w') = Some msg /\ msg <> ""%string)).
Proof.
  intros Hprompt. cbv zeta. unfold App.handleAction.
  assert (Hgen :
    App.isLoading (App.view (App.generateImage ai w)) = false /\
    ((exists url bytes,
        App.generatedImage (App.view (App.generateImage ai w)) = Some url /\
        url = ("data:image/png;base64," ++ bytes)%string /\
        App.error (App.view (App.generateImage ai w)) = None)
     \/
     (App.generatedImage (App.view (App.generateImage ai w)) = None /\
      exists msg, App.error (App.view (App.generateImage ai w)) = Some msg
                  /\ msg <> ""%string))).
  { destruct (generateImage_result ai w Hprompt) as [_ ->].
    apply shows_image_or_error; try discriminate; try reflexivity.
    intros url Hout. exact (generate_url ai _ _ _ _ Hout). }
  destruct (App.activeTab (App.view w)); [exact Hgen|].
  destruct (JS.truthy_string (App.uploadedImage (App.view w))) eqn:Hup;
    [|exact Hgen].
  destruct (editImage_result ai w Hprompt Hup) as [_ ->].
  apply shows_image_or_error; try discriminate; try reflexivity.
  intros url Hout. exact (editImage_untyped_url ai _ _ _ _ _ Hout).
Qed.

(** X15. A run of [handleAction] with a prompt that is not empty, when
    no other run of a handler overlaps it (its call settles before the
    next event is handled), ends with the loading flag off and with
    exactly one result on screen: either an image, which is a PNG data
    URL, and no error, or no image and an error message that is not
    empty, whatever the service did. *)
Theorem action_shows_image_or_error (w : App.World (R := R)) :
  JS.truthy_string (Some (App.prompt (App.view w))) = true ->
  let w' := App.handleAction ai w in
  App.isLoading (App.view w') = false /\
  ((exists url bytes,
      App.generatedImage (App.view w') = Some url /\
      url = ("data:image/png;base64," ++ bytes)%string /\
      App.error (App.view w') = None)
   \/
   (App.generatedImage (App.view w') = None /\
    exists msg, App.error (App.view w') = Some msg /\ msg <> ""%string)).
Proof. exact (handleAction_outcome w). Qed.

(** X16. What the user sees when the service answers the first request
    of [generateImage] without a usable image, the run not overlapping
    another one.  For a response with no generated images: the error
    "No image data received from API.".  For a response whose first
    generated image has no [image] object: the call rejects with the
    [TypeError] of the property access, and the error shown is that
    [TypeError]'s own message, in whatever words the engine gives it,
    or the text "Failed to generate image. [...]" should that message be
    empty.  No image is shown in either case. *)
Theorem absent_image_is_reported (w : App.World (R := R))
    (response : GenerateImagesResponse) (r : R) :
  JS.truthy_string (Some (App.prompt (App.view w))) = true ->
  models_generateImages ai (apiKey (App.page w))
    (imagen_request (App.prompt (App.view w)) (App.aspectRatio (App.view w)))
    (remote (App.page w)) = (Fulfilled response, r) ->
  let s' := App.view (App.generateImage ai w) in
  (generatedImages response = None \/ generatedImages response = Some [] ->
   App.error s' = Some "No image data received from API."%string /\
   App.generatedImage s' = None) /\
  (forall first rest,
     generatedImages response = Some (first :: rest) ->
     image first = None ->
     exists thrown,
       outcome
         (generateImageGemini ai (App.prompt (App.view w))
            (App.aspectRatio (App.view w)) (App.page w))
       = Rejected (Rethrown thrown) /\
       name thrown = "TypeError"%string /\
       App.error s'
       = Some (JS.or_else (message thrown)
                 "Failed to generate image. Please try a different prompt or check your API key.")
       /\ App.generatedImage s' = None).
Proof.
  intros Hprompt Hcall s'. subst s'.
  destruct (generateImage_result ai w Hprompt) as [_ ->].
  pose proof (generateImage_attempt_fulfilled ai _ _ (App.page w) response r
                Hcall) as Hattempt.
  cbv zeta in Hattempt.
  pose proof (generated_image_cases response) as Hcases.
  split.
  - intros Hnone.
    assert (Hextract : generated_image response = Fulfilled None)
      by (destruct Hnone as [Hn | Hn]; rewrite Hn in Hcases; exact Hcases).
    rewrite Hextract in Hattempt.
    unfold generateImageGemini, withExponentialBackoff.
    rewrite (run_then_fulfilled _ 3 1000 (App.page w) (App.page w) _ [] None
               (Failing_nil _ _) (Forall_nil _) Hattempt
               (within_default_attempts [] ltac:(simpl; lia))).
    split; reflexivity.
  - intros first rest Hlist Himage.
    rewrite Hlist, Himage in Hcases. rewrite Hcases in Hattempt.
    exists (TypeError_reading "imageBytes").
    unfold generateImageGemini, withExponentialBackoff.
    rewrite (run_then_fatal _ 3 1000 (App.page w) (App.page w) _ []
               (TypeError_reading "imageBytes")
               (Failing_nil _ _) (Forall_nil _) Hattempt eq_refl
               (within_default_attempts [] ltac:(simpl; lia))).
    repeat split.
Qed.

Lemma handleChatSubmit_outcome (w : App.World (R := R)) :
  JS.truthy_string (Some (JS.trim (App.chatInput (App.view w)))) = true ->
  App.isChatLoading (App.view w) = false ->
  let w' := App.handleChatSubmit ai w in
  exists answer n,
    answer <> ""%string /\
    App.view w'
    = App.setIsChatLoading false
        (App.setChatHistory
           (fun prev =>
              (prev ++ [{| role := user;
                           message_text := App.chatInput (App.view w) |};
                        {| role := model; message_text := answer |}])%list)
           (App.setChatInput "" (App.view w))) /\
    (1 <= n <= 3)%nat /\
    sent (App.page w')
    = (sent (App.page w)
       ++ repeat
            (ChatSendMessage (apiKey (App.page w))
               (chat_session (App.chatHistory (App.view w)))
               {| send_message := App.chatInput (App.view w) |})
            n)%list.
Proof.
  intros Hinput Hidle. cbv zeta.
  destruct (handleChatSubmit_result ai w Hinput Hidle) as [Hpage Hview].
  cbv zeta in Hpage, Hview.
  destruct (call_requests ai (App.page w)) as [_ [_ Hreq]].
  specialize (Hreq (App.chatHistory (App.view w)) (App.chatInput (App.view w))).
  cbv zeta in Hreq. destruct Hreq as [Hn Hsent].
  set (call := sendChatMessageGemini ai (App.chatHistory (App.view w))
                 (App.chatInput (App.view w)) (App.page w)) in *.
  set (answer :=
         match outcome call with
         | Fulfilled (Some (String c rest)) => String c rest
         | Fulfilled _ =>
             JS.or_else
               (message_of (NewError "Sorry, I couldn't generate a response."))
               "I apologize, but I encountered an error while processing your request. Please try again."
         | Rejected err =>
             JS.or_else (message_of err)
               "I apologize, but I encountered an error while processing your request. Please try again."
         end) in *.
  assert (Hanswer : answer <> ""%string).
  { subst answer. destruct (outcome call) as [[[|c rest]|] | err];
      try discriminate.
    apply or_else_nonempty. discriminate. }
  clearbody answer call.
  exists answer, (invocations (events call)).
  split; [exact Hanswer | split; [|split; [exact Hn|]]].
  - rewrite Hview.
    unfold App.setIsChatLoading, App.setChatHistory, App.setChatInput.
    cbn [App.darkMode App.sidebarOpen App.prompt App.generatedImage
         App.isLoading App.error App.aspectRatio App.uploadedImage
         App.activeTab App.chatHistory App.chatInput App.isChatOpen
         App.isChatLoading].
    rewrite <- app_assoc. reflexivity.
  - rewrite Hpage. exact Hsent.
Qed.

(** X17. [handleChatSubmit] does nothing when the input is blank or a
    reply is being awaited.  Otherwise it empties the input, clears the
    loading flag and appends exactly one exchange to the transcript: the
    input as the user's message and then one model message that is not
    empty, the reply or an error text; and every request it sends
    carries the transcript as it was before, and the input as the new
    message. *)
Theorem chat_submit_appends_exchange (w : App.World (R := R)) :
  (JS.truthy_string (Some (JS.trim (App.chatInput (App.view w)))) = false
   \/ App.isChatLoading (App.view w) = true ->
   App.handleChatSubmit ai w = w) /\
  (JS.truthy_string (Some (JS.trim (App.chatInput (App.view w)))) = true ->
   App.isChatLoading (App.view w) = false ->
   let w' := App.handleChatSubmit ai w in
   exists answer n,
     answer <> ""%string /\
     App.view w'
     = App.setIsChatLoading false
         (App.setChatHistory
            (fun prev =>
               (prev ++ [{| role := user;
                            message_text := App.chatInput (App.view w) |};
                         {| role := model; message_text := answer |}])%list)
            (App.setChatInput "" (App.view w))) /\
     (1 <= n <= 3)%nat /\
     sent (App.page w')
     = (sent (App.page w)
        ++ repeat
             (ChatSendMessage (apiKey (App.page w))
                (chat_session (App.chatHistory (App.view w)))
                {| send_message := App.chatInput (App.view w) |})
             n)%list).
Proof.
  split; [|exact (handleChatSubmit_outcome w)].
  intros Hblocked. unfold App.handleChatSubmit. cbv zeta.
  destruct Hblocked as [-> | ->]; [reflexivity|].
  rewrite orb_true_r. reflexivity.
Qed.

End ComponentProperties.

Section Invariants.

Context {R : Type}.
Variable ai : GoogleGenAI R.

(** [handleAction] leaves the panels and the chat alone. *)
Lemma handleAction_frame (w : App.World (R := R)) :
  let s' := App.view (App.handleAction ai w) in
  App.isChatOpen s' = App.isChatOpen (App.view w) /\
  App.sidebarOpen s' = App.sidebarOpen (App.view w) /\
  App.chatHistory s' = App.chatHistory (App.view w) /\
  App.isChatLoading s' = App.isChatLoading (App.view w).
Proof.
  cbv zeta.
  destruct (JS.truthy_string (Some (App.prompt (App.view w)))) eqn:Hprompt.
  - unfold App.handleAction.
    assert (Hgen :
      App.isChatOpen (App.view (App.generateImage ai w))
        = App.isChatOpen (App.view w) /\
      App.sidebarOpen (App.view (App.generateImage ai w))
        = App.sidebarOpen (App.view w) /\
      App.chatHistory (App.view (App.generateImage ai w))
        = App.chatHistory (App.view w) /\
      App.isChatLoading (App.view (App.generateImage ai w))
        = App.isChatLoading (App.view w)).
    { destruct (generateImage_result ai w Hprompt) as [_ ->].
      destruct (outcome _) as [[[|c rest]|] | err]; repeat split. }
    destruct (App.activeTab (App.view w)); [exact Hgen|].
    destruct (JS.truthy_string (App.uploadedImage (App.view w))) eqn:Hup;
      [|exact Hgen].
    destruct (editImage_result ai w Hprompt Hup) as [_ ->].
    destruct (outcome _) as [[[|c rest]|] | err]; repeat split.
  - assert (Hempty : App.prompt (App.view w) = ""%string)
      by (destruct (App.prompt (App.view w)); [reflexivity | discriminate]).
    destruct (handleAction_empty_prompt ai w Hempty) as [_ [_ ->]].
    destruct (App.activeTab (App.view w));
      [|destruct (JS.truthy_string (App.uploadedImage (App.view w)))];
      repeat split.
Qed.

Lemma handleAction_wellformed (w : App.World (R := R)) :
  App.wellformed (App.view w) ->
  App.wellformed (App.view (App.handleAction ai w)).
Proof.
  intros (Hpanels & Herror & Himage & Hchat & Hload & Hchatload).
  destruct (handleAction_frame w) as (Fopen & Fside & Fhist & Fload).
  cbv zeta in Fopen, Fside, Fhist, Fload.
  unfold App.wellformed. rewrite Fopen, Fside, Fhist, Fload.
  destruct (JS.truthy_string (Some (App.prompt (App.view w)))) eqn:Hprompt.
  - destruct (handleAction_outcome ai w Hprompt) as [Hidle Hshown].
    cbv zeta in Hidle, Hshown.
    destruct Hshown as [(url & bytes & Hurl & Hbytes & Herr)
                       | (Hnone & msg & Hmsg & Hne)].
    + repeat split; try assumption.
      * rewrite Herr. discriminate.
      * intros url' Hurl'. rewrite Hurl in Hurl'. injection Hurl' as <-.
        exists bytes. exact Hbytes.
    + repeat split; try assumption.
      * rewrite Hmsg. intros H. injection H as ->. contradiction.
      * intros url Hurl. rewrite Hnone in Hurl. discriminate.
  - assert (Hempty : App.prompt (App.view w) = ""%string)
      by (destruct (App.prompt (App.view w)); [reflexivity | discriminate]).
    destruct (handleAction_empty_prompt ai w Hempty) as [_ [_ ->]].
    destruct (App.activeTab (App.view w));
      [|destruct (JS.truthy_string (App.uploadedImage (App.view w)))];
      repeat split; try assumption.
    cbn. discriminate.
Qed.

Lemma handleChatSubmit_wellformed (w : App.World (R := R)) :
  App.wellformed (App.view w) ->
  App.wellformed (App.view (App.handleChatSubmit ai w)).
Proof.
  intros Hwf.
  destruct (JS.truthy_string (Some (JS.trim (App.chatInput (App.view w)))))
    eqn:Hinput.
  2:{ unfold App.handleChatSubmit. cbv zeta. rewrite Hinput. exact Hwf. }
  destruct (App.isChatLoading (App.view w)) eqn:Hidle.
  { unfold App.handleChatSubmit. cbv zeta. rewrite Hinput, Hidle. exact Hwf. }
  destruct (handleChatSubmit_outcome ai w Hinput Hidle)
    as (answer & n & Hanswer & Hview & _).
  cbv zeta in Hview. rewrite Hview.
  destruct Hwf as (Hpanels & Herror & Himage & Hchat & Hload & _).
  unfold App.wellformed, App.setIsChatLoading, App.setChatHistory,
    App.setChatInput.
  cbn [App.darkMode App.sidebarOpen App.prompt App.generatedImage
       App.isLoading App.error App.aspectRatio App.uploadedImage
       App.activeTab App.chatHistory App.chatInput App.isChatOpen
       App.isChatLoading].
  repeat split; try assumption.
  apply exchanges_app; try assumption; try reflexivity.
  cbn [message_text]. apply trim_truthy_nonempty. exact Hinput.
Qed.

(** Every handler keeps the state well formed. *)
Lemma handle_wellformed (event : App.UIEvent) (w : App.World (R := R)) :
  App.wellformed (App.view w) ->
  App.wellformed (App.view (App.handle ai event w)).
Proof.
  intros Hwf.
  destruct event as [ | | tab | ratio | [result|] | | value | | | | value | ];
    cbn [App.handle].
  - exact Hwf.
  - destruct Hwf as (Hpanels & Herror & Himage & Hchat & Hload & Hchatload).
    unfold App.toggleSidebar, App.render, App.wellformed.
    destruct (App.sidebarOpen (App.view w)) eqn:Hside,
             (App.isChatOpen (App.view w)) eqn:Hopen;
      cbn in *; rewrite ?Hside, ?Hopen; cbn;
      repeat split; try assumption; try discriminate.
  - destruct Hwf as (Hpanels & Herror & Himage & Hchat & Hload & Hchatload).
    unfold App.wellformed. cbn. repeat split; try assumption. discriminate.
  - exact Hwf.
  - destruct Hwf as (Hpanels & Herror & Himage & Hchat & Hload & Hchatload).
    unfold App.wellformed. cbn. repeat split; try assumption. discriminate.
  - exact Hwf.
  - destruct Hwf as (Hpanels & Herror & Himage & Hchat & Hload & Hchatload).
    unfold App.wellformed. cbn. repeat split; try assumption. discriminate.
  - exact Hwf.
  - apply handleAction_wellformed. exact Hwf.
  - destruct (App.action_disabled (App.view w)); [exact Hwf|].
    apply handleAction_wellformed. exact Hwf.
  - destruct Hwf as (Hpanels & Herror & Himage & Hchat & Hload & Hchatload).
    unfold App.toggleChat, App.render, App.wellformed.
    destruct (App.sidebarOpen (App.view w)) eqn:Hside,
             (App.isChatOpen (App.view w)) eqn:Hopen;
      cbn in *; rewrite ?Hside, ?Hopen; cbn;
      repeat split; try assumption; try discriminate.
  - exact Hwf.
  - apply handleChatSubmit_wellformed. exact Hwf.
Qed.

Lemma run_wellformed (events : list App.UIEvent) (w : App.World (R := R)) :
  App.wellformed (App.view w) ->
  App.wellformed (App.view (App.run ai events w)).
Proof.
  revert w. unfold App.run.
  induction events as [|event events IH]; intros w Hwf; [exact Hwf|].
  cbn [fold_left]. apply IH. apply handle_wellformed. exact Hwf.
Qed.

Lemma initial_wellformed : App.wellformed App.initial.
Proof.
  unfold App.wellformed. cbn. repeat split; try discriminate.
Qed.

(** X18. From the initial state, whatever the user does and whatever
    the service answers, the chat panel and the settings sidebar are
    never open together: opening one closes the other. *)
Theorem panels_never_both_open (events : list App.UIEvent) (page : Page R) :
  let w :=
    App.run ai events
      {| App.view := App.initial; App.page := page; App.console := [] |} in
  App.isChatOpen (App.view w) && App.sidebarOpen (App.view w) = false.
Proof.
  intros w.
  exact (proj1 (run_wellformed events
             {| App.view := App.initial; App.page := page; App.console := [] |}
             initial_wellformed)).
Qed.

(** X19. From the initial state, with every call settling before the
    next event, the chat transcript is always a series of exchanges: a
    user message followed by a model message, neither empty.  A failed
    call fills the model's turn with an error text, so the transcript
    handed to the service as history starts with the user and
    alternates. *)
Theorem chat_transcript_takes_turns (events : list App.UIEvent)
    (page : Page R) :
  let w :=
    App.run ai events
      {| App.view := App.initial; App.page := page; App.console := [] |} in
  App.exchanges (App.chatHistory (App.view w)).
Proof.
  intros w.
  exact (proj1 (proj2 (proj2 (proj2
           (run_wellformed events
             {| App.view := App.initial; App.page := page; App.console := [] |}
             initial_wellformed))))).
Qed.

(** X20. From the initial state, with every call settling before the
    next event, what the canvas shows is well formed: an error is never
    the empty string, an image is always a PNG data URL produced by the
    service layer, and nothing is left loading. *)
Theorem shown_results_well_formed (events : list App.UIEvent)
    (page : Page R) :
  let w :=
    App.run ai events
      {| App.view := App.initial; App.page := page; App.console := [] |} in
  App.error (App.view w) <> Some ""%string /\
  (forall url, App.generatedImage (App.view w) = Some url ->
     exists bytes, url = ("data:image/png;base64," ++ bytes)%string) /\
  App.isLoading (App.view w) = false /\
  App.isChatLoading (App.view w) = false.
Proof.
  intros w.
  destruct (run_wellformed events
             {| App.view := App.initial; App.page := page; App.console := [] |}
             initial_wellformed)
    as (_ & Herror & Himage & _ & Hload & Hchatload).
  repeat split; assumption.
Qed.

End Invariants.

(** ** The component on stub services *)

Lemma upload_reaches_service_witness :
  JS.truthy_string (Some (App.prompt (App.view Stub.uploaded))) = true /\
  App.uploadedImage (App.view Stub.uploaded)
  = Some ("data:" ++ "image/jpeg" ++ ";base64," ++ "/9j/4AAQ")%string /\
  JS.includes "image/jpeg" "," = false /\
  JS.includes "image/jpeg" ";" = false /\
  JS.includes "image/jpeg" ":" = false /\
  JS.includes "/9j/4AAQ" "," = false /\
  exists n,
    (1 <= n <= 3)%nat /\
    sent (App.page
            (App.editImage (Stub.replying Stub.one_png Stub.text_then_image)
               Stub.uploaded))
    = (sent (App.page Stub.uploaded)
       ++ repeat
            (GenerateContent (apiKey (App.page Stub.uploaded))
               (edit_request (App.prompt (App.view Stub.uploaded))
                  "/9j/4AAQ" "image/jpeg"))
            n)%list.
Proof.
  assert (H1 : JS.truthy_string (Some (App.prompt (App.view Stub.uploaded)))
               = true) by reflexivity.
  assert (H2 : App.uploadedImage (App.view Stub.uploaded)
               = Some ("data:" ++ "image/jpeg" ++ ";base64," ++ "/9j/4AAQ")%string)
    by reflexivity.
  assert (H3 : JS.includes "image/jpeg" "," = false) by reflexivity.
  assert (H4 : JS.includes "image/jpeg" ";" = false) by reflexivity.
  assert (H5 : JS.includes "image/jpeg" ":" = false) by reflexivity.
  assert (H6 : JS.includes "/9j/4AAQ" "," = false) by reflexivity.
  split; [exact H1 | split; [exact H2 | split; [exact H3 |
    split; [exact H4 | split; [exact H5 | split; [exact H6|]]]]]].
  exact (upload_reaches_service
           (Stub.replying Stub.one_png Stub.text_then_image) Stub.uploaded
           "image/jpeg" "/9j/4AAQ" H1 H2 H3 H4 H5 H6).
Defined.

Lemma action_shows_image_or_error_witness :
  JS.truthy_string (Some (App.prompt (App.view Stub.prompted))) = true /\
  App.isLoading
    (App.view
       (App.handleAction (Stub.replying Stub.one_png Stub.text_then_image)
          Stub.prompted)) = false.
Proof.
  assert (H1 : JS.truthy_string (Some (App.prompt (App.view Stub.prompted)))
               = true) by reflexivity.
  split; [exact H1|].
  exact (proj1 (action_shows_image_or_error
                  (Stub.replying Stub.one_png Stub.text_then_image)
                  Stub.prompted H1)).
Defined.

Lemma absent_image_is_reported_witness :
  JS.truthy_string (Some (App.prompt (App.view Stub.prompted))) = true /\
  models_generateImages (Stub.replying Stub.no_images Stub.text_then_image)
    (apiKey (App.page Stub.prompted))
    (imagen_request (App.prompt (App.view Stub.prompted))
       (App.aspectRatio (App.view Stub.prompted)))
    (remote (App.page Stub.prompted))
  = (Fulfilled Stub.no_images, 1%nat) /\
  App.error
    (App.view
       (App.generateImage (Stub.replying Stub.no_images Stub.text_then_image)
          Stub.prompted))
  = Some "No image data received from API."%string.
Proof.
  assert (H1 : JS.truthy_string (Some (App.prompt (App.view Stub.prompted)))
               = true) by reflexivity.
  assert (H2 : models_generateImages
                 (Stub.replying Stub.no_images Stub.text_then_image)
                 (apiKey (App.page Stub.prompted))
                 (imagen_request (App.prompt (App.view Stub.prompted))
                    (App.aspectRatio (App.view Stub.prompted)))
                 (remote (App.page Stub.prompted))
               = (Fulfilled Stub.no_images, 1%nat)) by reflexivity.
  split; [exact H1 | split; [exact H2|]].
  exact (proj1 (proj1 (absent_image_is_reported
                         (Stub.replying Stub.no_images Stub.text_then_image)
                         Stub.prompted Stub.no_images 1%nat H1 H2)
                  (or_intror eq_refl))).
Defined.

Example uploaded_image_is_edited :
  App.generatedImage
    (App.view
       (App.handle (Stub.replying Stub.one_png Stub.text_then_image)
          App.ClickAction Stub.uploaded))
  = Some "data:image/png;base64,/9j/4AAQ"%string.
Proof. vm_compute. reflexivity. Qed.

Example chat_exchange :
  App.chatHistory
    (App.view
       (App.run (Stub.replying Stub.one_png Stub.text_then_image)
          [App.ToggleChat; App.TypeChat "hi"; App.SubmitChat]
          {| App.view := App.initial; App.page := Stub.start;
             App.console := [] |}))
  = [ {| role := user; message_text := "hi" |};
      {| role := model; message_text := "Here is the edited image." |} ].
Proof. vm_compute. reflexivity. Qed.
